(** * The event tracer of pytorch_pfn_extras.profiler._tracing

    A shallow embedding of [Tracer], [DummyTracer], [ChromeTracer] and of the
    module-level registry ([_tracer], [get_tracer], [clear_tracer]), followed
    by the properties of the tracing subsystem.

    Python objects live in a heap and are reached through references, module
    globals and external calls (clock, device barrier, writer) are part of an
    explicit world, and every method is a computation in a state-and-exception
    monad over that world.  Floats are IEEE-754 binary64 values as specified
    by [SpecFloat]. *)

From Stdlib Require Import ZArith Lia Floats.SpecFloat.
From Stdlib Require Import Ascii String DecimalString.
From stdpp Require Import base option gmap strings list.

Open Scope Z_scope.

(** ** Python exceptions and outcomes *)

(** The exceptions that the module and its callees raise, by class and
    message.  [UserException] stands for whatever a traced block or a writer
    raises.  [DanglingReference] has no counterpart in Python: it is the
    outcome of reading a reference that the heap of the model does not
    hold. *)
Inductive exn : Type :=
| NotImplementedError (msg : string)
| TypeError (msg : string)
| AttributeError (msg : string)
| KeyError (key : string)
| ZeroDivisionError (msg : string)
| OverflowError (msg : string)
| JSONDecodeError
| UserException (cls : string) (payload : string)
| DanglingReference.

Inductive outcome (A : Type) : Type :=
| Return (a : A)
| Raise (e : exn).

Arguments Return {A} a.
Arguments Raise {A} e.

(** ** Floats and the true division of integers *)

Definition float : Type := spec_float.
Definition prec : Z := 53.
Definition emax : Z := 1024.

Definition float_zero : float := S754_zero false.
Definition float_inf : float := S754_infinity false.

(** The integer [z] as an exact, not yet rounded, binary number. *)
Definition float_of_int_exact (z : Z) : float :=
  match z with
  | Z0 => S754_zero false
  | Zpos p => S754_finite false p 0
  | Zneg p => S754_finite true p 0
  end.

(** The quotient [a / b] rounded once, to nearest even. *)
Definition true_quotient (a b : Z) : float :=
  SFdiv prec emax (float_of_int_exact a) (float_of_int_exact b).

(** [a / b] on Python integers: correctly rounded, [ZeroDivisionError] for a
    zero divisor and [OverflowError] when the quotient leaves the range of a
    float. *)
Definition int_true_divide (a b : Z) : outcome float :=
  if b =? 0 then Raise (ZeroDivisionError "division by zero")
  else match true_quotient a b with
       | S754_infinity _ =>
           Raise (OverflowError "integer division result too large for a float")
       | q => Return q
       end.

(** [x <= y] on floats; false as soon as one side is a NaN. *)
Definition float_le (x y : float) : bool := SFleb x y.

(** Sign of a float that is a zero or a finite number. *)
Definition finite_with_sign (s : bool) (f : float) : Prop :=
  match f with
  | S754_zero s' | S754_finite s' _ _ => s' = s
  | _ => False
  end.

(** ** Data model *)

(** One entry of [_event_list]: the dictionary built in [add_event], with its
    keys [name], [cat], [ph], [ts], [dur], [pid], [tid] in that order. *)
Record Event : Type := {
  ev_name : string;
  ev_cat : string;
  ev_ph : string;
  ev_ts : float;
  ev_dur : float;
  ev_pid : Z;
  ev_tid : Z;
}.

(** Value of [_max_event_count]: an integer or [float("inf")]. *)
Inductive MaxCount : Type :=
| Bounded (n : Z)
| Unbounded.

(** Truth value of an [Optional[int]]. *)
Definition truthy (x : option Z) : bool :=
  match x with
  | None => false
  | Some n => negb (n =? 0)
  end.

(** [max_event_count or float("inf")]. *)
Definition or_inf (max_event_count : option Z) : MaxCount :=
  match max_event_count with
  | Some n => if truthy max_event_count then Bounded n else Unbounded
  | None => Unbounded
  end.

(** [count < max] between an integer and a [MaxCount]. *)
Definition lt_max (count : Z) (max : MaxCount) : bool :=
  match max with
  | Bounded n => count <? n
  | Unbounded => true
  end.

(** Instance attributes of a [ChromeTracer]. *)
Record ChromeTracerAttrs : Type := {
  _enable : bool;
  _event_list : list Event;
  _max_event_count : MaxCount;
  _event_count : Z;
  _is_cuda_available : bool;
  _pid : Z;
}.

Definition set_enable (v : bool) (a : ChromeTracerAttrs) : ChromeTracerAttrs :=
  {| _enable := v; _event_list := _event_list a;
     _max_event_count := _max_event_count a; _event_count := _event_count a;
     _is_cuda_available := _is_cuda_available a; _pid := _pid a |}.

Definition set_event_list (v : list Event) (a : ChromeTracerAttrs)
  : ChromeTracerAttrs :=
  {| _enable := _enable a; _event_list := v;
     _max_event_count := _max_event_count a; _event_count := _event_count a;
     _is_cuda_available := _is_cuda_available a; _pid := _pid a |}.

Definition set_max_event_count (v : MaxCount) (a : ChromeTracerAttrs)
  : ChromeTracerAttrs :=
  {| _enable := _enable a; _event_list := _event_list a;
     _max_event_count := v; _event_count := _event_count a;
     _is_cuda_available := _is_cuda_available a; _pid := _pid a |}.

Definition set_event_count (v : Z) (a : ChromeTracerAttrs) : ChromeTracerAttrs :=
  {| _enable := _enable a; _event_list := _event_list a;
     _max_event_count := _max_event_count a; _event_count := v;
     _is_cuda_available := _is_cuda_available a; _pid := _pid a |}.

(** The three classes of the module and their instances. *)
Inductive TracerCls : Type :=
| Tracer_cls
| DummyTracer_cls
| ChromeTracer_cls.

Global Instance TracerCls_eq_dec : EqDecision TracerCls.
Proof. solve_decision. Defined.

Inductive instance : Type :=
| TracerInstance
| DummyTracerInstance
| ChromeTracerInstance (attrs : ChromeTracerAttrs).

(** [obj.__class__]. *)
Definition class_of (obj : instance) : TracerCls :=
  match obj with
  | TracerInstance => Tracer_cls
  | DummyTracerInstance => DummyTracer_cls
  | ChromeTracerInstance _ => ChromeTracer_cls
  end.

(** Method resolution order of each class. *)
Definition mro (c : TracerCls) : list TracerCls :=
  match c with
  | Tracer_cls => [Tracer_cls]
  | DummyTracer_cls => [DummyTracer_cls; Tracer_cls]
  | ChromeTracer_cls => [ChromeTracer_cls; Tracer_cls]
  end.

(** First class of a resolution order that defines the method. *)
Fixpoint first_defined {T : Type} (own : TracerCls -> option T)
  (order : list TracerCls) : option T :=
  match order with
  | [] => None
  | k :: rest =>
      match own k with
      | Some f => Some f
      | None => first_defined own rest
      end
  end.

Definition resolve {T : Type} (own : TracerCls -> option T) (c : TracerCls)
  : option T :=
  first_defined own (mro c).

(** ** The world: heap, module global, external calls *)

Definition loc : Type := nat.

(** The save functions that reach a writer.  An instance of
    [ChromeTracingSaveFunc] is the only one in this module; what it does when
    the writer calls it (the target dumped as indented JSON, encoded in ASCII
    and written to the file object) is the business of the writer. *)
Inductive SaveFunc : Type :=
| ChromeTracingSaveFunc.

(** The arguments of one call [writer(filename, out_dir, target,
    savefun=savefun)]. *)

Record WriterCall : Type := {
  wc_filename : string;
  wc_out_dir : string;
  wc_target : list Event;
  wc_savefun : SaveFunc;
}.

Record World : Type := {
  (** the tracer objects, by reference *)
  heap : gmap loc instance;
  (** the module global [_tracer] *)
  _tracer : option loc;
  (** calls of [time.perf_counter_ns()] made so far *)
  clock_reads : nat;
  (** calls of [torch.cuda.synchronize()] made so far *)
  synchronize_calls : nat;
  (** what a recording writer has been handed so far *)
  written : list WriterCall;
}.

Definition set_heap (h : gmap loc instance) (w : World) : World :=
  {| heap := h; _tracer := _tracer w; clock_reads := clock_reads w;
     synchronize_calls := synchronize_calls w; written := written w |}.

Definition set_tracer (t : option loc) (w : World) : World :=
  {| heap := heap w; _tracer := t; clock_reads := clock_reads w;
     synchronize_calls := synchronize_calls w; written := written w |}.

Definition set_clock_reads (n : nat) (w : World) : World :=
  {| heap := heap w; _tracer := _tracer w; clock_reads := n;
     synchronize_calls := synchronize_calls w; written := written w |}.

Definition set_synchronize_calls (n : nat) (w : World) : World :=
  {| heap := heap w; _tracer := _tracer w; clock_reads := clock_reads w;
     synchronize_calls := n; written := written w |}.

Definition set_written (l : list WriterCall) (w : World) : World :=
  {| heap := heap w; _tracer := _tracer w; clock_reads := clock_reads w;
     synchronize_calls := synchronize_calls w; written := l |}.

(** The process as it is first imported: no object, [_tracer = None]. *)
Definition initial_world : World :=
  {| heap := ∅; _tracer := None; clock_reads := 0%nat;
     synchronize_calls := 0%nat; written := [] |}.

(** What the host answers to the calls the module makes. *)
Record Host : Type := {
  (** result of the [i]-th call of [time.perf_counter_ns()] *)
  perf_counter_ns_at : nat -> Z;
  (** [torch.cuda.is_available()] *)
  cuda_is_available : bool;
  (** what the [i]-th call of [torch.cuda.synchronize()] raises, if it does *)
  synchronize_at : nat -> option exn;
  (** [os.getpid()] *)
  getpid : Z;
  (** [threading.get_native_id()] *)
  native_id : Z;
}.

(** The two functions of the [json] module that the tracer calls, on event
    lists. *)
Record Json : Type := {
  dumps : list Event -> string;
  loads : string -> outcome (list Event);
}.

(** ** Computations *)

(** A computation runs in a world and returns or raises; either way the world
    keeps the changes made so far. *)
Definition M (A : Type) : Type := World -> outcome A * World.

Definition ret {A : Type} (a : A) : M A := fun w => (Return a, w).

Definition raise {A : Type} (e : exn) : M A := fun w => (Raise e, w).

Definition bind {A B : Type} (m : M A) (k : A -> M B) : M B :=
  fun w =>
    match m w with
    | (Return a, w') => k a w'
    | (Raise e, w') => (Raise e, w')
    end.

Notation "'let*' x ':=' m 'in' k" := (bind m (fun x => k))
  (at level 10, x name, m at level 100, k at level 200).

(** [try: body finally: handler]. An exception of the handler replaces the
    outcome of the body. *)
Definition try_finally {A : Type} (body : M A) (handler : M unit) : M A :=
  fun w =>
    match body w with
    | (r, w1) =>
        match handler w1 with
        | (Return _, w2) => (r, w2)
        | (Raise e, w2) => (Raise e, w2)
        end
    end.

(** [try: body except BaseException as e: ...], with the outcome as a value. *)
Definition attempt {A : Type} (body : M A) : M (outcome A) :=
  fun w => match body w with (r, w1) => (Return r, w1) end.

Definition get_world : M World := fun w => (Return w, w).

Definition modify_world (f : World -> World) : M unit :=
  fun w => (Return tt, f w).

Definition lift {A : Type} (r : outcome A) : M A := fun w => (r, w).

(** The object behind a reference. *)
Definition load (l : loc) : M instance :=
  let* w := get_world in
  match heap w !! l with
  | Some obj => ret obj
  | None => raise DanglingReference
  end.

Definition store (l : loc) (obj : instance) : M unit :=
  modify_world (fun w => set_heap (<[l := obj]> (heap w)) w).

(** A new object: a reference that the heap does not use yet. *)
Definition alloc (obj : instance) : M loc :=
  let* w := get_world in
  let l := fresh (dom (heap w)) in
  let* _ := store l obj in
  ret l.

(** [self.<attr>] on a [ChromeTracer]. *)
Definition getattr {A : Type} (self : loc) (attr : ChromeTracerAttrs -> A)
  : M A :=
  let* obj := load self in
  match obj with
  | ChromeTracerInstance a => ret (attr a)
  | _ => raise (AttributeError "not a ChromeTracer attribute")
  end.

(** [self.<attr> = v] on a [ChromeTracer], as the setter of the attribute. *)
Definition setattr (self : loc)
  (setter : ChromeTracerAttrs -> ChromeTracerAttrs) : M unit :=
  let* obj := load self in
  match obj with
  | ChromeTracerInstance a => store self (ChromeTracerInstance (setter a))
  | _ => raise (AttributeError "not a ChromeTracer attribute")
  end.

(** *** Generator-based context managers *)

(** A generator function with one [yield], as [contextlib.contextmanager]
    takes it: run to the [yield], it leaves the suspended frame, which is
    resumed with what the [with] block did ([None]: it ended normally,
    [Some e]: it raised [e], thrown into the generator at the [yield]). *)
Definition generator : Type := M (option exn -> M unit).

(** The [yield] of a resumed frame. *)
Definition yield_ (thrown : option exn) : M unit :=
  match thrown with
  | None => ret tt
  | Some e => raise e
  end.

(** [with cm: body]. [__enter__] runs the generator to its [yield];
    [__exit__] resumes it, and the statement ends as the generator does: an
    exception of the block is suppressed only if the generator returns. *)
Definition with_ (cm : generator) (body : M unit) : M unit :=
  let* frame := cm in
  let* r := attempt body in
  match r with
  | Return _ => frame None
  | Raise e => frame (Some e)
  end.

(** *** Calls to the host *)

Definition perf_counter_ns (host : Host) : M Z :=
  let* w := get_world in
  let* _ := modify_world (set_clock_reads (S (clock_reads w))) in
  ret (perf_counter_ns_at host (clock_reads w)).

Definition cuda_synchronize (host : Host) : M unit :=
  let* w := get_world in
  let* _ := modify_world (set_synchronize_calls (S (synchronize_calls w))) in
  match synchronize_at host (synchronize_calls w) with
  | None => ret tt
  | Some e => raise e
  end.

Definition get_native_id (host : Host) : M Z := ret (native_id host).

(** A writer is any callable of the four arguments. *)
Definition Writer : Type := string -> string -> list Event -> SaveFunc -> M unit.

(** The writer that only records what it is handed. *)
Definition recording_writer : Writer :=
  fun filename out_dir target savefun =>
    modify_world (fun w =>
      set_written (written w ++ [{| wc_filename := filename;
                                    wc_out_dir := out_dir;
                                    wc_target := target;
                                    wc_savefun := savefun |}]) w).

(** ** Values of a state dictionary *)

Inductive PyVal : Type :=
| PyBool (b : bool)
| PyInt (n : Z)
| PyFloat (f : float)
| PyStr (s : string).

Definition max_count_value (m : MaxCount) : PyVal :=
  match m with
  | Bounded n => PyInt n
  | Unbounded => PyFloat float_inf
  end.

(** The attributes are typed in this model: a value of another type than the
    attribute holds is refused where Python would store it. *)
Definition as_bool (v : PyVal) : M bool :=
  match v with
  | PyBool b => ret b
  | _ => raise (TypeError "expected a bool")
  end.

Definition as_str (v : PyVal) : M string :=
  match v with
  | PyStr s => ret s
  | _ => raise (TypeError "expected a str")
  end.

Definition as_int (v : PyVal) : M Z :=
  match v with
  | PyInt n => ret n
  | _ => raise (TypeError "expected an int")
  end.

Definition as_max_count (v : PyVal) : M MaxCount :=
  match v with
  | PyInt n => ret (Bounded n)
  | PyFloat (S754_infinity false) => ret Unbounded
  | _ => raise (TypeError "expected an int or inf")
  end.

(** [d[key]]. *)
Definition getitem (d : gmap string PyVal) (key : string) : M PyVal :=
  match d !! key with
  | Some v => ret v
  | None => raise (KeyError key)
  end.

(** ** class Tracer *)

(** Every method of the base class raises.  [add_event] has no [yield]: under
    [contextlib.contextmanager] the exception is raised where the [with]
    statement asks for the context manager, before the block. *)
Module Tracer.

Definition add_event (self : loc) (name : string) : generator :=
  raise (NotImplementedError "Tracers must implement add_event").

Definition clear (self : loc) : M unit :=
  raise (NotImplementedError "Tracers must implement clear").

Definition flush (self : loc) (filename : string) (writer : Writer) : M unit :=
  raise (NotImplementedError "Tracers must implement flush").

Definition enable (self : loc) (enable_flag : bool) : M unit :=
  raise (NotImplementedError "Tracers must implement enable").

End Tracer.

(** ** class DummyTracer(Tracer) *)

(** The class defines [add_event], [clear] and [flush], and nothing else. *)
Module DummyTracer.

Definition add_event (self : loc) (name : string) : generator :=
  ret (fun thrown => yield_ thrown).

Definition clear (self : loc) : M unit := ret tt.

Definition flush (self : loc) (filename : string) (writer : Writer) : M unit :=
  ret tt.

End DummyTracer.

(** ** class ChromeTracer(Tracer) *)

Module ChromeTracer.

Section Methods.

Variable host : Host.
Variable json : Json.

(** The attributes that [__init__] sets. *)
Definition __init__ (max_event_count : option Z) (enable : bool)
  : ChromeTracerAttrs :=
  {| _enable := enable;
     _event_list := [];
     _max_event_count := or_inf max_event_count;
     _event_count := 0;
     _is_cuda_available := cuda_is_available host;
     _pid := getpid host |}.

(** [ChromeTracer(max_event_count, enable)]. *)
Definition new (max_event_count : option Z) (enable : bool) : M loc :=
  alloc (ChromeTracerInstance (__init__ max_event_count enable)).

(** The [finally] block of [add_event]. *)
Definition add_event_finally (self : loc) (name : string) (begin_ns : Z)
  : M unit :=
  let* enable := getattr self _enable in
  let* recording :=
    (if enable
     then let* count := getattr self _event_count in
          let* max := getattr self _max_event_count in
          ret (lt_max count max)
     else ret false) in
  if recording then
    let* cuda := getattr self _is_cuda_available in
    let* _ := (if cuda then cuda_synchronize host else ret tt) in
    let* count := getattr self _event_count in
    let* _ := setattr self (set_event_count (count + 1)) in
    let* end_ns := perf_counter_ns host in
    let duration_ns := end_ns - begin_ns in
    let* tid := get_native_id host in
    let* ts := lift (int_true_divide begin_ns 1000) in
    let* dur := lift (int_true_divide duration_ns 1000) in
    let* pid := getattr self _pid in
    let* events := getattr self _event_list in
    setattr self
      (set_event_list
         (events ++ [{| ev_name := name; ev_cat := ""; ev_ph := "X";
                        ev_ts := ts; ev_dur := dur;
                        ev_pid := pid; ev_tid := tid |}]))
  else ret tt.

Definition add_event (self : loc) (name : string) : generator :=
  let* begin_ns := perf_counter_ns host in
  ret (fun thrown =>
         try_finally (yield_ thrown) (add_event_finally self name begin_ns)).

Definition flush (self : loc) (filename : string) (writer : Writer) : M unit :=
  let* enable := getattr self _enable in
  if negb enable then ret tt
  else
    let savefun := ChromeTracingSaveFunc in
    let* events := getattr self _event_list in
    writer filename "" events savefun.

Definition enable (self : loc) (enable_flag : bool) : M unit :=
  setattr self (set_enable enable_flag).

Definition state_dict (self : loc) : M (gmap string PyVal) :=
  let state : gmap string PyVal := ∅ in
  let* enable := getattr self _enable in
  let state := <["_enable" := PyBool enable]> state in
  let* events := getattr self _event_list in
  let state := <["_event_list" := PyStr (dumps json events)]> state in
  let* max := getattr self _max_event_count in
  let state := <["_max_event_count" := max_count_value max]> state in
  let* count := getattr self _event_count in
  let state := <["_event_count" := PyInt count]> state in
  ret state.

Definition load_state_dict (self : loc) (to_load : gmap string PyVal)
  : M unit :=
  let* v := getitem to_load "_enable" in
  let* enable := as_bool v in
  let* _ := setattr self (set_enable enable) in
  let* v := getitem to_load "_event_list" in
  let* text := as_str v in
  let* events := lift (loads json text) in
  let* _ := setattr self (set_event_list events) in
  let* v := getitem to_load "_max_event_count" in
  let* max := as_max_count v in
  let* _ := setattr self (set_max_event_count max) in
  let* v := getitem to_load "_event_count" in
  let* count := as_int v in
  setattr self (set_event_count count).

Definition clear (self : loc) : M unit :=
  let* _ := setattr self (set_event_list []) in
  setattr self (set_event_count 0).

End Methods.

End ChromeTracer.

(** ** Method calls on a tracer of any class *)

Section Dispatch.

Variable host : Host.

Definition own_add_event (c : TracerCls)
  : option (loc -> string -> generator) :=
  match c with
  | Tracer_cls => Some Tracer.add_event
  | DummyTracer_cls => Some DummyTracer.add_event
  | ChromeTracer_cls => Some (ChromeTracer.add_event host)
  end.

Definition own_clear (c : TracerCls) : option (loc -> M unit) :=
  match c with
  | Tracer_cls => Some Tracer.clear
  | DummyTracer_cls => Some DummyTracer.clear
  | ChromeTracer_cls => Some ChromeTracer.clear
  end.

Definition own_flush (c : TracerCls)
  : option (loc -> string -> Writer -> M unit) :=
  match c with
  | Tracer_cls => Some Tracer.flush
  | DummyTracer_cls => Some DummyTracer.flush
  | ChromeTracer_cls => Some ChromeTracer.flush
  end.

(** [DummyTracer] defines no [enable]. *)
Definition own_enable (c : TracerCls) : option (loc -> bool -> M unit) :=
  match c with
  | Tracer_cls => Some Tracer.enable
  | DummyTracer_cls => None
  | ChromeTracer_cls => Some ChromeTracer.enable
  end.

(** [tracer.<attr>]: the method of that name that the class of the object
    resolves to. *)
Definition method {T : Type} (own : TracerCls -> option T) (attr : string)
  (tracer : loc) : M T :=
  let* obj := load tracer in
  match resolve own (class_of obj) with
  | Some f => ret f
  | None => raise (AttributeError attr)
  end.

(** [tracer.add_event(name)]. *)
Definition call_add_event (tracer : loc) (name : string) : generator :=
  let* f := method own_add_event "add_event" tracer in
  f tracer name.

(** [tracer.clear()]. *)
Definition call_clear (tracer : loc) : M unit :=
  let* f := method own_clear "clear" tracer in
  f tracer.

(** [tracer.flush(filename, writer)]. *)
Definition call_flush (tracer : loc) (filename : string) (writer : Writer)
  : M unit :=
  let* f := method own_flush "flush" tracer in
  f tracer filename writer.

(** [tracer.enable(enable_flag)]. *)
Definition call_enable (tracer : loc) (enable_flag : bool) : M unit :=
  let* f := method own_enable "enable" tracer in
  f tracer enable_flag.

(** ** The registry *)

(** [tracer_cls()]: the class called with no argument. *)
Definition construct (tracer_cls : TracerCls) : M loc :=
  match tracer_cls with
  | Tracer_cls => alloc TracerInstance
  | DummyTracer_cls => alloc DummyTracerInstance
  | ChromeTracer_cls => ChromeTracer.new host None true
  end.

Definition read_tracer : M (option loc) :=
  let* w := get_world in ret (_tracer w).

Definition write_tracer (t : option loc) : M unit :=
  modify_world (set_tracer t).

Definition get_tracer (tracer_cls : TracerCls) : M loc :=
  let* t := read_tracer in
  let* _ :=
    (match t with
     | None =>
         let* obj := construct tracer_cls in
         write_tracer (Some obj)
     | Some _ => ret tt
     end) in
  let* t := read_tracer in
  match t with
  | None => raise (TypeError "get_tracer called with a different cls")
  | Some tracer =>
      let* obj := load tracer in
      if decide (class_of obj ≠ tracer_cls)
      then raise (TypeError "get_tracer called with a different cls")
      else ret tracer
  end.

(** [get_tracer().clear()], with the default class [ChromeTracer]. *)
Definition clear_tracer : M unit :=
  let* tracer := get_tracer ChromeTracer_cls in
  call_clear tracer.

(** ** Traced blocks *)

(** [with tracer.add_event(name): body]. *)
Definition span (tracer : loc) (name : string) (body : M unit) : M unit :=
  with_ (call_add_event tracer name) body.

(** One span after the other, each in a [try] that keeps its outcome. *)
Fixpoint run_spans (tracer : loc) (spans : list (string * M unit))
  : M (list (outcome unit)) :=
  match spans with
  | [] => ret []
  | (name, body) :: rest =>
      let* r := attempt (span tracer name body) in
      let* rs := run_spans tracer rest in
      ret (r :: rs)
  end.

End Dispatch.

(** ** A JSON codec for event lists *)

(** An encoder and a decoder of the text that [json.dumps] and [json.loads]
    exchange for a list of events.  Strings are escaped as under
    [ensure_ascii]; a float is printed with all its decimal digits and read
    back with one rounding. *)
Module SimpleJson.

Inductive scalar : Type :=
| SStr (s : string)
| SInt (n : Z)
| SFloat (f : float).

Inductive token : Type :=
| TLBracket
| TRBracket
| TLBrace
| TRBrace
| TComma
| TColon
| TString (s : string)
| TAtom (text : string).

Definition quote : ascii := ascii_of_nat 34.
Definition backslash : ascii := ascii_of_nat 92.

Definition string_of_rev (acc : list ascii) : string :=
  string_of_list_ascii (rev acc).

(** *** Encoder *)

Definition hex_digit (n : N) : ascii :=
  match n with
  | 0 => "0" | 1 => "1" | 2 => "2" | 3 => "3" | 4 => "4" | 5 => "5"
  | 6 => "6" | 7 => "7" | 8 => "8" | 9 => "9" | 10 => "a" | 11 => "b"
  | 12 => "c" | 13 => "d" | 14 => "e" | _ => "f"
  end%N%char.

Definition escape_char (c : ascii) : list ascii :=
  let code := N_of_ascii c in
  if (code =? 34)%N then [backslash; quote]
  else if (code =? 92)%N then [backslash; backslash]
  else if (code =? 10)%N then [backslash; "n"%char]
  else if (code =? 13)%N then [backslash; "r"%char]
  else if (code =? 9)%N then [backslash; "t"%char]
  else if (code =? 8)%N then [backslash; "b"%char]
  else if (code =? 12)%N then [backslash; "f"%char]
  else if ((code <? 32) || (126 <? code))%N then
    [backslash; "u"%char; "0"%char; "0"%char;
     hex_digit (code / 16); hex_digit (code mod 16)]
  else [c].

Definition dump_string (s : string) : string :=
  string_of_list_ascii
    (quote :: concat (map escape_char (list_ascii_of_string s)) ++ [quote]).

Definition dump_int (n : Z) : string := NilZero.string_of_int (Z.to_int n).

(** [width] decimal digits of [n], the most significant first. *)
Fixpoint fixed_digits (width : nat) (n : Z) (acc : list ascii) : list ascii :=
  match width with
  | O => acc
  | S width' =>
      fixed_digits width' (n / 10)
        (ascii_of_N (48 + Z.to_N (n mod 10)) :: acc)
  end.

Fixpoint drop_zeros (l : list ascii) : list ascii :=
  match l with
  | c :: rest => if Ascii.eqb c "0" then drop_zeros rest else l
  | [] => []
  end.

(** The fraction digits without the zeros at their end, one digit at least. *)
Definition fraction_text (digits : list ascii) : string :=
  match rev (drop_zeros (rev digits)) with
  | [] => "0"
  | l => string_of_list_ascii l
  end.

Definition dump_float (f : float) : string :=
  match f with
  | S754_nan => "NaN"
  | S754_infinity false => "Infinity"
  | S754_infinity true => "-Infinity"
  | S754_zero false => "0.0"
  | S754_zero true => "-0.0"
  | S754_finite s m e =>
      let sign := if s then "-" else "" in
      if 0 <=? e then sign +:+ dump_int (Zpos m * 2 ^ e) +:+ ".0"
      else
        let k := - e in
        let n := Zpos m * 5 ^ k in
        sign +:+ dump_int (n / 10 ^ k) +:+ "."
        +:+ fraction_text (fixed_digits (Z.to_nat k) (n mod 10 ^ k) [])
  end.

Definition dump_key (k : string) : string := dump_string k +:+ ": ".

Definition dump_event (ev : Event) : string :=
  "{" +:+ dump_key "name" +:+ dump_string (ev_name ev)
  +:+ ", " +:+ dump_key "cat" +:+ dump_string (ev_cat ev)
  +:+ ", " +:+ dump_key "ph" +:+ dump_string (ev_ph ev)
  +:+ ", " +:+ dump_key "ts" +:+ dump_float (ev_ts ev)
  +:+ ", " +:+ dump_key "dur" +:+ dump_float (ev_dur ev)
  +:+ ", " +:+ dump_key "pid" +:+ dump_int (ev_pid ev)
  +:+ ", " +:+ dump_key "tid" +:+ dump_int (ev_tid ev)
  +:+ "}".

Definition dumps (events : list Event) : string :=
  "[" +:+ String.concat ", " (map dump_event events) +:+ "]".

(** *** Decoder: tokens *)

Inductive lex_mode : Type :=
| Outside
| InAtom (acc : list ascii)
| InString (acc : list ascii)
| InEscape (acc : list ascii)
| InUnicode (acc : list ascii) (value : N) (remaining : nat).

Definition is_space (c : ascii) : bool :=
  let code := N_of_ascii c in
  ((code =? 32) || (code =? 9) || (code =? 10) || (code =? 13))%N.

(** Characters of a number or of a name such as [Infinity]. *)
Definition is_atom_char (c : ascii) : bool :=
  let code := N_of_ascii c in
  (((48 <=? code) && (code <=? 57)) || ((65 <=? code) && (code <=? 90))
   || ((97 <=? code) && (code <=? 122))
   || (code =? 43) || (code =? 45) || (code =? 46))%N.

Definition hex_value (c : ascii) : option N :=
  let code := N_of_ascii c in
  if ((48 <=? code) && (code <=? 57))%N then Some (code - 48)%N
  else if ((97 <=? code) && (code <=? 102))%N then Some (code - 87)%N
  else if ((65 <=? code) && (code <=? 70))%N then Some (code - 55)%N
  else None.

(** One character read outside of strings and atoms. *)
Definition outside_step (c : ascii) (toks : list token)
  : option (lex_mode * list token) :=
  let code := N_of_ascii c in
  if is_space c then Some (Outside, toks)
  else if (code =? 91)%N then Some (Outside, TLBracket :: toks)
  else if (code =? 93)%N then Some (Outside, TRBracket :: toks)
  else if (code =? 123)%N then Some (Outside, TLBrace :: toks)
  else if (code =? 125)%N then Some (Outside, TRBrace :: toks)
  else if (code =? 44)%N then Some (Outside, TComma :: toks)
  else if (code =? 58)%N then Some (Outside, TColon :: toks)
  else if (code =? 34)%N then Some (InString [], toks)
  else if is_atom_char c then Some (InAtom [c], toks)
  else None.

Definition unescape (c : ascii) : option ascii :=
  let code := N_of_ascii c in
  if (code =? 34)%N then Some quote
  else if (code =? 92)%N then Some backslash
  else if (code =? 47)%N then Some "/"%char
  else if (code =? 110)%N then Some (ascii_of_nat 10)
  else if (code =? 114)%N then Some (ascii_of_nat 13)
  else if (code =? 116)%N then Some (ascii_of_nat 9)
  else if (code =? 98)%N then Some (ascii_of_nat 8)
  else if (code =? 102)%N then Some (ascii_of_nat 12)
  else None.

Fixpoint lex (mode : lex_mode) (toks : list token) (text : string)
  : option (list token) :=
  match text with
  | EmptyString =>
      match mode with
      | Outside => Some (rev toks)
      | InAtom acc => Some (rev (TAtom (string_of_rev acc) :: toks))
      | _ => None
      end
  | String c rest =>
      match mode with
      | Outside =>
          match outside_step c toks with
          | Some (mode', toks') => lex mode' toks' rest
          | None => None
          end
      | InAtom acc =>
          if is_atom_char c then lex (InAtom (c :: acc)) toks rest
          else
            match outside_step c (TAtom (string_of_rev acc) :: toks) with
            | Some (mode', toks') => lex mode' toks' rest
            | None => None
            end
      | InString acc =>
          let code := N_of_ascii c in
          if (code =? 34)%N then lex Outside (TString (string_of_rev acc) :: toks) rest
          else if (code =? 92)%N then lex (InEscape acc) toks rest
          else if (code <? 32)%N then None
          else lex (InString (c :: acc)) toks rest
      | InEscape acc =>
          if (N_of_ascii c =? 117)%N then lex (InUnicode acc 0 4) toks rest
          else
            match unescape c with
            | Some c' => lex (InString (c' :: acc)) toks rest
            | None => None
            end
      | InUnicode acc value remaining =>
          match hex_value c with
          | Some d =>
              let value' := (16 * value + d)%N in
              match remaining with
              | 1%nat =>
                  if (value' <? 256)%N
                  then lex (InString (ascii_of_N value' :: acc)) toks rest
                  else None
              | _ => lex (InUnicode acc value' (pred remaining)) toks rest
              end
          | None => None
          end
      end
  end.

(** *** Decoder: numbers *)

(** The digits at the start of [text], accumulated on [acc]: the value, the
    number of digits read and the rest of the text. *)
Fixpoint read_digits (text : string) (acc : Z) (n : nat) : Z * nat * string :=
  match text with
  | String c rest =>
      let code := N_of_ascii c in
      if ((48 <=? code) && (code <=? 57))%N
      then read_digits rest (10 * acc + Z.of_N (code - 48)) (S n)
      else (acc, n, text)
  | EmptyString => (acc, n, text)
  end.

(** The float nearest to [m * 10 ^ e10], with sign [neg]. *)
Definition decimal_to_float (neg : bool) (m e10 : Z) : float :=
  let signed := if neg then - m else m in
  if m =? 0 then S754_zero neg
  else if 0 <=? e10 then binary_normalize prec emax (signed * 10 ^ e10) 0 false
  else true_quotient signed (10 ^ (- e10)).

Definition read_exponent (neg : bool) (m : Z) (fraction_digits : nat)
  (text : string) : option scalar :=
  match text with
  | EmptyString =>
      Some (SFloat (decimal_to_float neg m (- Z.of_nat fraction_digits)))
  | String c rest =>
      if ((N_of_ascii c =? 101) || (N_of_ascii c =? 69))%N then
        let '(eneg, digits) :=
          match rest with
          | String "-" r => (true, r)
          | String "+" r => (false, r)
          | _ => (false, rest)
          end in
        match read_digits digits 0 0 with
        | (_, O, _) => None
        | (e, _, EmptyString) =>
            Some (SFloat (decimal_to_float neg m
                            ((if eneg then - e else e)
                             - Z.of_nat fraction_digits)))
        | _ => None
        end
      else None
  end.

Definition read_number (text : string) : option scalar :=
  let '(neg, body) :=
    match text with
    | String "-" r => (true, r)
    | _ => (false, text)
    end in
  match read_digits body 0 0 with
  | (_, O, _) => None
  | (n, _, EmptyString) => Some (SInt (if neg then - n else n))
  | (n, _, String "." fraction) =>
      match read_digits fraction n 0 with
      | (_, O, _) => None
      | (m, k, rest) => read_exponent neg m k rest
      end
  | (n, _, rest) => read_exponent neg n 0 rest
  end.

Definition read_atom (text : string) : option scalar :=
  if String.eqb text "NaN" then Some (SFloat S754_nan)
  else if String.eqb text "Infinity" then Some (SFloat (S754_infinity false))
  else if String.eqb text "-Infinity" then Some (SFloat (S754_infinity true))
  else read_number text.

Definition scalar_of_token (t : token) : option scalar :=
  match t with
  | TString s => Some (SStr s)
  | TAtom text => read_atom text
  | _ => None
  end.

(** *** Decoder: an array of flat objects *)

Fixpoint parse_pairs (toks : list token) (acc : list (string * scalar))
  : option (list (string * scalar) * list token) :=
  match toks with
  | TString k :: TColon :: v :: rest =>
      match scalar_of_token v with
      | Some sv =>
          match rest with
          | TComma :: rest' => parse_pairs rest' ((k, sv) :: acc)
          | TRBrace :: rest' => Some (rev ((k, sv) :: acc), rest')
          | _ => None
          end
      | None => None
      end
  | _ => None
  end.

Definition parse_object (toks : list token)
  : option (list (string * scalar) * list token) :=
  match toks with
  | TLBrace :: TRBrace :: rest => Some ([], rest)
  | TLBrace :: rest => parse_pairs rest []
  | _ => None
  end.

Fixpoint parse_objects (fuel : nat) (toks : list token)
  (acc : list (list (string * scalar)))
  : option (list (list (string * scalar))) :=
  match fuel with
  | O => None
  | S fuel' =>
      match parse_object toks with
      | Some (o, TComma :: rest) => parse_objects fuel' rest (o :: acc)
      | Some (o, [TRBracket]) => Some (rev (o :: acc))
      | _ => None
      end
  end.

Definition parse_array (toks : list token)
  : option (list (list (string * scalar))) :=
  match toks with
  | [TLBracket; TRBracket] => Some []
  | TLBracket :: rest => parse_objects (length rest) rest []
  | _ => None
  end.

(** *** Decoder: events *)

(** [d[key]] in the dictionary that the pairs of an object make: the last
    pair of a key is the one that counts. *)
Fixpoint item (key : string) (pairs : list (string * scalar)) : option scalar :=
  match pairs with
  | [] => None
  | (k, v) :: rest =>
      match item key rest with
      | Some v' => Some v'
      | None => if String.eqb k key then Some v else None
      end
  end.

Definition event_keys : list string :=
  ["name"; "cat"; "ph"; "ts"; "dur"; "pid"; "tid"].

Definition event_of_object (pairs : list (string * scalar)) : option Event :=
  if forallb (fun kv => existsb (String.eqb kv.1) event_keys) pairs then
    match item "name" pairs, item "cat" pairs, item "ph" pairs,
          item "ts" pairs, item "dur" pairs,
          item "pid" pairs, item "tid" pairs with
    | Some (SStr name), Some (SStr cat), Some (SStr ph),
      Some (SFloat ts), Some (SFloat dur),
      Some (SInt pid), Some (SInt tid) =>
        Some {| ev_name := name; ev_cat := cat; ev_ph := ph;
                ev_ts := ts; ev_dur := dur; ev_pid := pid; ev_tid := tid |}
    | _, _, _, _, _, _, _ => None
    end
  else None.

Fixpoint events_of_objects (objects : list (list (string * scalar)))
  : option (list Event) :=
  match objects with
  | [] => Some []
  | o :: rest =>
      match event_of_object o, events_of_objects rest with
      | Some ev, Some evs => Some (ev :: evs)
      | _, _ => None
      end
  end.

Definition loads (text : string) : outcome (list Event) :=
  match lex Outside [] text with
  | Some toks =>
      match parse_array toks with
      | Some objects =>
          match events_of_objects objects with
          | Some events => Return events
          | None => Raise (TypeError "not a list of events")
          end
      | None => Raise JSONDecodeError
      end
  | None => Raise JSONDecodeError
  end.

Definition json : Json := Build_Json dumps loads.

End SimpleJson.

(** ** Vocabulary of the statements *)

(** The world in which the [ChromeTracer] behind [self] has attributes [a]. *)
Definition put_attrs (self : loc) (a : ChromeTracerAttrs) (w : World) : World :=
  set_heap (<[self := ChromeTracerInstance a]> (heap w)) w.

(** [self] refers to a [ChromeTracer] with attributes [a]. *)
Definition is_chrome (w : World) (self : loc) (a : ChromeTracerAttrs) : Prop :=
  heap w !! self = Some (ChromeTracerInstance a).

(** [time.perf_counter_ns()] is monotonic, and counts in a signed 64-bit
    integer. *)
Definition clock_monotonic (host : Host) : Prop :=
  forall i j : nat, (i <= j)%nat ->
    perf_counter_ns_at host i <= perf_counter_ns_at host j.

Definition clock_in_range (host : Host) : Prop :=
  forall i : nat, - 2 ^ 63 <= perf_counter_ns_at host i < 2 ^ 63.

(** The device barrier returns whenever it is called. *)
Definition barrier_returns (host : Host) : Prop :=
  forall i : nat, synchronize_at host i = None.

(** A traced block that leaves the tracer behind [self] as it is and does not
    take calls of the clock back. *)
Definition keeps_tracer (self : loc) (body : M unit) : Prop :=
  forall w : World,
    heap (body w).2 !! self = heap w !! self /\
    (clock_reads w <= clock_reads (body w).2)%nat.

(** The event that a span of [name] records when the clock read [begin_ns] at
    its start and [end_ns] at its end. *)
Definition recorded_event (name : string) (begin_ns end_ns pid tid : Z)
  : Event :=
  {| ev_name := name; ev_cat := ""; ev_ph := "X";
     ev_ts := true_quotient begin_ns 1000;
     ev_dur := true_quotient (end_ns - begin_ns) 1000;
     ev_pid := pid; ev_tid := tid |}.

(** The attributes after one more event. *)
Definition with_event (ev : Event) (a : ChromeTracerAttrs) : ChromeTracerAttrs :=
  set_event_list (_event_list a ++ [ev]) (set_event_count (_event_count a + 1) a).

(** The cap check of [add_event]. *)
Definition records (a : ChromeTracerAttrs) : bool :=
  _enable a && lt_max (_event_count a) (_max_event_count a).

(** The world after the device barrier of a recording span. *)
Definition synchronized (a : ChromeTracerAttrs) (w : World) : World :=
  if _is_cuda_available a
  then set_synchronize_calls (S (synchronize_calls w)) w
  else w.

(** The world in which a span of [name] ends: the clock read [begin_ns] when
    the span started, and the traced block left the world [w] with the tracer
    attributes [a]. *)
Definition span_end (host : Host) (self : loc) (name : string) (begin_ns : Z)
  (a : ChromeTracerAttrs) (w : World) : World :=
  if records a then
    put_attrs self
      (with_event
         (recorded_event name begin_ns
            (perf_counter_ns_at host (clock_reads w)) (_pid a) (native_id host))
         a)
      (set_clock_reads (S (clock_reads w)) (synchronized a w))
  else w.

(** How many of [n] spans in a row a tracer with attributes [a] records. *)
Definition recorded_count (a : ChromeTracerAttrs) (n : nat) : nat :=
  if _enable a then
    match _max_event_count a with
    | Unbounded => n
    | Bounded k => Z.to_nat (Z.min (Z.of_nat n) (Z.max 0 (k - _event_count a)))
    end
  else 0%nat.

(** The attributes after the events [evs] were recorded. *)
Definition with_events (evs : list Event) (a : ChromeTracerAttrs)
  : ChromeTracerAttrs :=
  set_event_list (_event_list a ++ evs)
    (set_event_count (_event_count a + Z.of_nat (length evs)) a).

(** [0 <= dur] on the recorded duration. *)
Definition dur_nonneg (ev : Event) : Prop :=
  float_le float_zero (ev_dur ev) = true.

(** The world in which the block of a [ChromeTracer] span starts: the clock
    has been read once more. *)
Definition block_start (w : World) : World :=
  set_clock_reads (S (clock_reads w)) w.

(** What [flush] hands to the writer. *)
Definition flush_call (filename : string) (a : ChromeTracerAttrs) : WriterCall :=
  {| wc_filename := filename; wc_out_dir := ""; wc_target := _event_list a;
     wc_savefun := ChromeTracingSaveFunc |}.

(** The object that [tracer_cls()] constructs. *)
Definition default_instance (host : Host) (tracer_cls : TracerCls) : instance :=
  match tracer_cls with
  | Tracer_cls => TracerInstance
  | DummyTracer_cls => DummyTracerInstance
  | ChromeTracer_cls => ChromeTracerInstance (ChromeTracer.__init__ host None true)
  end.

(** One call of [get_tracer] per requested class, each in a [try] that keeps
    its outcome. *)
Fixpoint get_tracers (host : Host) (requests : list TracerCls)
  : M (list (outcome loc)) :=
  match requests with
  | [] => ret []
  | tracer_cls :: rest =>
      let* r := attempt (get_tracer host tracer_cls) in
      let* rs := get_tracers host rest in
      ret (r :: rs)
  end.

(** What a call of [get_tracer] answers once the registry holds an object of
    class [stored] behind [tracer]. *)
Definition registry_answer (stored : TracerCls) (tracer : loc)
  (tracer_cls : TracerCls) : outcome loc :=
  if decide (tracer_cls = stored) then Return tracer
  else Raise (TypeError "get_tracer called with a different cls").


(** ** Concrete hosts, worlds and tracers *)

(** A host without accelerator whose clock advances by 2.5 microseconds from
    one call to the next, up to the largest reading. *)
Definition cpu_host : Host :=
  {| perf_counter_ns_at :=
       fun i => Z.min (1000000 + 2500 * Z.of_nat i) (2 ^ 63 - 1);
     cuda_is_available := false;
     synchronize_at := fun _ => None;
     getpid := 4242;
     native_id := 4243 |}.

(** A world with one [ChromeTracer] of attributes [a], at reference [0]. *)
Definition world_with (a : ChromeTracerAttrs) : World :=
  put_attrs 0%nat a initial_world.

(** A tracer with two buffered events and room for three more. *)
Definition two_events (enable : bool) : ChromeTracerAttrs :=
  {| _enable := enable;
     _event_list := [recorded_event "a" 1000000 1002500 4242 4243;
                     recorded_event "b" 1005000 1007500 4242 4243];
     _max_event_count := Bounded 5;
     _event_count := 2;
     _is_cuda_available := false;
     _pid := 4242 |}.

(** A world whose registry holds a [DummyTracer], at reference [0]. *)
Definition dummy_world : World :=
  set_tracer (Some 0%nat)
    (set_heap (<[0%nat := DummyTracerInstance]> ∅) initial_world).

(** ** pytorch_pfn_extras.distributed._dataset_util *)

(** Computations of this module return or raise, and keep no state. *)
Definition outcome_bind {A B : Type} (r : outcome A) (k : A -> outcome B)
  : outcome B :=
  match r with
  | Return a => k a
  | Raise e => Raise e
  end.

Notation "'let!' x ':=' r 'in' k" := (outcome_bind r (fun x => k))
  (at level 10, x name, r at level 100, k at level 200).

(** What the host answers to the calls the module makes.  A tensor of shape
    [()] is the integer it holds. *)
Record DistHost : Type := {
  (** [torch.randint(0, 2 ** 31, size=())] *)
  randint : Z;
  (** [torch.distributed.is_initialized()] *)
  dist_is_initialized : bool;
  (** [torch.distributed.get_backend()] *)
  dist_get_backend : string;
  (** [seed.cuda()] *)
  tensor_cuda : Z -> outcome Z;
  (** what the tensor holds after [torch.distributed.broadcast(tensor, src)] *)
  dist_broadcast : Z -> Z -> outcome Z;
  (** [torch.distributed.get_world_size()] *)
  dist_get_world_size : outcome Z;
  (** [torch.distributed.get_rank()] *)
  dist_get_rank : outcome Z;
  (** [np.random.RandomState(seed)], as what its first [shuffle] does to a
      list *)
  random_state : Z -> outcome (list Z -> list Z);
}.

(** [a // b] on integers. *)
Definition floordiv (a b : Z) : outcome Z :=
  if b =? 0
  then Raise (ZeroDivisionError "integer division or modulo by zero")
  else Return (a / b).

(** A bound of a slice, brought into [0 .. len]: a negative bound counts from
    the end. *)
Definition slice_index (i len : Z) : Z :=
  if i <? 0 then Z.max 0 (i + len) else Z.min i len.

(** [l[b:e]]. *)
Definition py_slice {A : Type} (l : list A) (b e : Z) : list A :=
  let len := Z.of_nat (length l) in
  let start := slice_index b len in
  let stop := slice_index e len in
  take (Z.to_nat (stop - start)) (drop (Z.to_nat start) l).

Definition _shared_random_seed (h : DistHost) : outcome Z :=
  let seed := randint h in
  let! seed :=
    (if dist_is_initialized h then
       let! seed :=
         (if String.eqb (dist_get_backend h) "nccl"
          then tensor_cuda h seed
          else Return seed) in
       dist_broadcast h seed 0
     else Return seed) in
  Return seed.

Definition create_distributed_subset_indices (h : DistHost)
  (num_total_samples : Z) (num_replicas rank : option Z) (shuffle : bool)
  (seed : option Z) : outcome (list Z) :=
  let! num_replicas :=
    (match num_replicas with
     | None => dist_get_world_size h
     | Some n => Return n
     end) in
  let! rank :=
    (match rank with
     | None => dist_get_rank h
     | Some r => Return r
     end) in
  let! seed :=
    (match seed with
     | None => _shared_random_seed h
     | Some s => Return s
     end) in
  let indices := seqZ 0 num_total_samples in
  let! rng := random_state h seed in
  let indices := if shuffle then rng indices else indices in
  let! n_sub_samples :=
    floordiv (num_total_samples + num_replicas - 1) num_replicas in
  let! b := floordiv (num_total_samples * rank) num_replicas in
  let e := b + n_sub_samples in
  Return (py_slice indices b e).

(** The random state of [seed] shuffles: what it returns is a permutation of
    what it is given. *)
Definition shuffles (h : DistHost) (seed : Z) : Prop :=
  exists sh : list Z -> list Z,
    random_state h seed = Return sh /\ forall l : list Z, sh l ≡ₚ l.

(** A process outside of any process group, whose random states reverse. *)
Definition single_process : DistHost :=
  {| randint := 12345;
     dist_is_initialized := false;
     dist_get_backend := "gloo";
     tensor_cuda := fun seed => Return seed;
     dist_broadcast := fun seed _ => Return seed;
     dist_get_world_size :=
       Raise (UserException "ValueError"
                "Default process group has not been initialized");
     dist_get_rank :=
       Raise (UserException "ValueError"
                "Default process group has not been initialized");
     random_state := fun _ => Return reverse |}.

(** ** More hosts and programs for the tracer *)

(** A host with an accelerator whose barrier returns, and one whose barrier
    raises. *)
Definition gpu_host : Host :=
  {| perf_counter_ns_at :=
       fun i => Z.min (1000000 + 2500 * Z.of_nat i) (2 ^ 63 - 1);
     cuda_is_available := true;
     synchronize_at := fun _ => None;
     getpid := 4242;
     native_id := 4243 |}.

Definition failing_gpu_host : Host :=
  {| perf_counter_ns_at :=
       fun i => Z.min (1000000 + 2500 * Z.of_nat i) (2 ^ 63 - 1);
     cuda_is_available := true;
     synchronize_at :=
       fun _ => Some (UserException "RuntimeError" "CUDA error");
     getpid := 4242;
     native_id := 4243 |}.

(** The calls that the module offers on its registry. *)
Inductive RegistryCall : Type :=
| CallGetTracer (tracer_cls : TracerCls)
| CallClearTracer.

Definition registry_call (host : Host) (c : RegistryCall) : M unit :=
  match c with
  | CallGetTracer tracer_cls =>
      let* _ := get_tracer host tracer_cls in ret tt
  | CallClearTracer => clear_tracer host
  end.

(** One call after the other, each in a [try] that keeps its outcome. *)
Fixpoint registry_calls (host : Host) (calls : list RegistryCall)
  : M (list (outcome unit)) :=
  match calls with
  | [] => ret []
  | c :: rest =>
      let* r := attempt (registry_call host c) in
      let* rs := registry_calls host rest in
      ret (r :: rs)
  end.



(** What one call on the registry answers once it holds an object of class
    [stored]: [get_tracer] accepts the stored class only, [clear_tracer] asks
    for a [ChromeTracer]. *)
Definition registry_result (stored : TracerCls) (c : RegistryCall)
  : outcome unit :=
  match c with
  | CallGetTracer tracer_cls =>
      if decide (tracer_cls = stored) then Return tt
      else Raise (TypeError "get_tracer called with a different cls")
  | CallClearTracer =>
      if decide (stored = ChromeTracer_cls) then Return tt
      else Raise (TypeError "get_tracer called with a different cls")
  end.

(** The attributes after [clear]. *)
Definition cleared (a : ChromeTracerAttrs) : ChromeTracerAttrs :=
  set_event_count 0 (set_event_list [] a).

(** The object behind the registry after [n] calls of [clear_tracer] went
    through. *)
Definition cleared_instance (obj : instance) : instance :=
  match obj with
  | ChromeTracerInstance a => ChromeTracerInstance (cleared a)
  | _ => obj
  end.

(** A world whose registry holds the [ChromeTracer] of [world_with]. *)
Definition registry_with (a : ChromeTracerAttrs) : World :=
  set_tracer (Some 0%nat) (world_with a).

(** * Properties *)

(** ** Rounding: a quotient of bounded integers is a finite float *)

Lemma digits2_pos_size (p : positive) : digits2_pos p = Pos.size p.
Proof. induction p; simpl; congruence. Qed.

Lemma Zdigits2_nonneg (m : Z) : 0 <= Zdigits2 m.
Proof. destruct m; simpl; lia. Qed.

Lemma Zdigits2_le (m t : Z) : 0 <= t -> 0 <= m < 2 ^ t -> Zdigits2 m <= t.
Proof.
  intros Ht [Hm Hlt]. destruct m as [|p|p]; simpl; [lia| |lia].
  rewrite digits2_pos_size.
  pose proof (Pos.size_le p) as Hs.
  assert (H2 : 2 ^ Zpos (Pos.size p) <= 2 * Zpos p).
  { rewrite <- Pos2Z.inj_pow. change (2 * Z.pos p) with (Zpos p~0). lia. }
  destruct (Z_le_gt_dec (Zpos (Pos.size p)) t) as [|Hgt]; [done|].
  exfalso.
  assert (H : 2 ^ (t + 1) <= 2 ^ Zpos (Pos.size p))
    by (apply Z.pow_le_mono_r; lia).
  rewrite Z.pow_add_r in H by lia. lia.
Qed.

Lemma shr_1_m (mrs : shr_record) :
  0 <= shr_m mrs -> shr_m (shr_1 mrs) = shr_m mrs / 2.
Proof.
  destruct mrs as [m r s]; simpl. intros Hm.
  destruct m as [|[p|p|]|p]; simpl; try lia; try reflexivity.
  - apply Z.div_unique with 1; lia.
  - apply Z.div_unique with 0; lia.
Qed.

Lemma iter_shr_1_m (p : positive) : forall mrs : shr_record,
  0 <= shr_m mrs ->
  shr_m (SpecFloat.iter_pos shr_1 p mrs) = shr_m mrs / 2 ^ Zpos p.
Proof.
  induction p as [p IH|p IH|]; intros mrs Hm; simpl SpecFloat.iter_pos.
  - assert (H1 : 0 <= shr_m (shr_1 mrs))
      by (rewrite shr_1_m by done; apply Z.div_pos; lia).
    assert (H2 : 0 <= shr_m (SpecFloat.iter_pos shr_1 p (shr_1 mrs))).
    { rewrite IH by done. apply Z.div_pos; lia. }
    rewrite IH, IH, shr_1_m by done.
    rewrite !Z.div_div by lia. f_equal.
    rewrite Pos2Z.inj_xI, Z.pow_add_r, Z.pow_mul_r by lia.
    change (2 ^ 2) with 4. change (2 ^ 1) with 2.
    replace (4 ^ Zpos p) with (2 ^ Zpos p * 2 ^ Zpos p); [lia|].
    rewrite <- Z.pow_mul_l. done.
  - assert (H2 : 0 <= shr_m (SpecFloat.iter_pos shr_1 p mrs)).
    { rewrite IH by done. apply Z.div_pos; lia. }
    rewrite IH, IH by done. rewrite Z.div_div by lia. f_equal.
    rewrite Pos2Z.inj_xO. rewrite <- Z.pow_add_r by lia. f_equal. lia.
  - rewrite shr_1_m by done. done.
Qed.

Lemma shr_spec (mrs : shr_record) (e n : Z) :
  0 <= shr_m mrs ->
  shr_m (shr mrs e n).1 = shr_m mrs / 2 ^ ((shr mrs e n).2 - e) /\
  (shr mrs e n).2 = Z.max e (e + n).
Proof.
  intros Hm. destruct n as [|p|p]; simpl.
  - rewrite Z.sub_diag, Z.div_1_r. lia.
  - rewrite iter_shr_1_m by done. split; [f_equal; f_equal; lia|lia].
  - rewrite Z.sub_diag, Z.div_1_r. lia.
Qed.

Lemma shr_record_of_loc_m (m : Z) (l : location) :
  shr_m (shr_record_of_loc m l) = m.
Proof. by destruct l as [|[]]. Qed.

Lemma round_nearest_even_bounds (m : Z) (l : location) :
  m <= round_nearest_even m l <= m + 1.
Proof. destruct l as [|[]]; simpl; try lia. destruct (Z.even m); lia. Qed.

(** Rounding a non-negative mantissa whose value stays below [2 ^ B] gives a
    zero or a finite number of the sign asked for: no overflow, no NaN. *)
Lemma binary_round_aux_finite (sx : bool) (mx ex : Z) (lx : location) (B : Z) :
  0 <= mx < 2 ^ (B - ex) -> ex <= emax - prec -> ex <= B -> B <= 1023 ->
  finite_with_sign sx (binary_round_aux prec emax sx mx ex lx).
Proof.
  intros [Hm Hlt] Hex HeB HB. unfold binary_round_aux, shr_fexp.
  set (r0 := shr_record_of_loc mx lx).
  assert (Hr0 : 0 <= shr_m r0)
    by (subst r0; rewrite shr_record_of_loc_m; done).
  destruct (shr_spec r0 ex (fexp prec emax (Zdigits2 mx + ex) - ex) Hr0)
    as [Hm1 He1].
  destruct (shr r0 ex _) as [mrs1 e1]; simpl in Hm1, He1.
  subst r0. rewrite shr_record_of_loc_m in Hm1.
  set (m1 := round_nearest_even (shr_m mrs1) (loc_of_shr_record mrs1)).
  pose proof (round_nearest_even_bounds (shr_m mrs1) (loc_of_shr_record mrs1))
    as Hrb.
  fold m1 in Hrb.
  assert (Hd : Zdigits2 mx <= B - ex) by (apply Zdigits2_le; lia).
  pose proof (Zdigits2_nonneg mx) as Hd0.
  assert (He1' : ex <= e1 <= Z.max (Z.max ex (B - prec)) (emin prec emax)).
  { rewrite He1. unfold fexp, emin, prec, emax. lia. }
  assert (Hm1' : 0 <= shr_m mrs1 /\ shr_m mrs1 < 2 ^ Z.max 0 (B - e1)).
  { rewrite Hm1. split; [apply Z.div_pos; lia|].
    apply Z.div_lt_upper_bound; [lia|].
    rewrite <- Z.pow_add_r by lia.
    eapply Z.lt_le_trans; [exact Hlt|]. apply Z.pow_le_mono_r; lia. }
  assert (Hm1nn : 0 <= m1) by lia.
  set (r1 := shr_record_of_loc m1 loc_Exact).
  assert (Hr1 : 0 <= shr_m r1) by (subst r1; simpl; lia).
  destruct (shr_spec r1 e1 (fexp prec emax (Zdigits2 m1 + e1) - e1) Hr1)
    as [Hm2 He2].
  destruct (shr r1 e1 _) as [mrs2 e2]; simpl in Hm2, He2.
  assert (Hd1 : Zdigits2 m1 <= Z.max 0 (B - e1) + 1).
  { apply Zdigits2_le; [lia|]. split; [done|].
    rewrite Z.pow_add_r by lia. change (2 ^ 1) with 2. lia. }
  assert (He2' : e2 <= emax - prec).
  { rewrite He2. unfold fexp, emin, prec, emax in *. lia. }
  assert (Hm2nn : 0 <= shr_m mrs2).
  { rewrite Hm2. apply Z.div_pos; [done|]. apply Z.pow_pos_nonneg; lia. }
  destruct (shr_m mrs2) as [|p|p]; simpl; [done| |lia].
  destruct (Z.leb_spec e2 (emax - prec)); [done|lia].
Qed.

Lemma SFdiv_int_finite (sx : bool) (pa pb : positive) :
  Zpos pa < 2 ^ 1023 ->
  finite_with_sign sx
    (SFdiv prec emax (S754_finite sx pa 0) (S754_finite false pb 0)).
Proof.
  intros Hlt. unfold SFdiv, SFdiv_core_binary.
  set (e' := Z.min _ _).
  assert (He' : e' <= 0) by (subst e'; lia).
  set (m' := match 0 - 0 - e' with
             | Z0 => Zpos pa | Zpos _ => _ | Zneg _ => _ end).
  assert (Hm' : m' = Zpos pa * 2 ^ (- e')).
  { subst m'. destruct (0 - 0 - e') as [|p|p] eqn:Hs; try lia.
    - replace (- e') with 0 by lia. lia.
    - rewrite Z.shiftl_mul_pow2 by lia. f_equal. f_equal. lia. }
  clearbody m'.
  pose proof (Z.div_eucl_eq m' (Zpos pb) ltac:(lia)) as Heq.
  pose proof (Z.mod_pos_bound m' (Zpos pb) ltac:(lia)) as Hmod.
  unfold Z.modulo in Hmod.
  destruct (Z.div_eucl m' (Zpos pb)) as [q r].
  replace (xorb sx false) with sx by (by destruct sx).
  apply binary_round_aux_finite with (B := 1023);
    [|unfold emax, prec; lia|lia|lia].
  assert (Hp : 0 < 2 ^ (- e')) by (apply Z.pow_pos_nonneg; lia).
  assert (Hq : 0 <= q) by nia.
  split; [done|].
  assert (q <= m') by nia.
  replace (1023 - e') with (1023 + - e') by lia.
  rewrite Z.pow_add_r by lia. nia.
Qed.

Lemma true_quotient_finite (a b : Z) :
  Z.abs a < 2 ^ 1023 -> 0 < b ->
  finite_with_sign (a <? 0) (true_quotient a b).
Proof.
  intros Ha Hb. unfold true_quotient.
  destruct b as [|pb|pb]; try lia.
  destruct a as [|pa|pa]; simpl float_of_int_exact; [done| |].
  - apply SFdiv_int_finite. lia.
  - apply SFdiv_int_finite. lia.
Qed.

Lemma int_true_divide_in_range (a : Z) :
  Z.abs a < 2 ^ 1023 ->
  int_true_divide a 1000 = Return (true_quotient a 1000).
Proof.
  intros Ha. unfold int_true_divide. simpl (1000 =? 0).
  pose proof (true_quotient_finite a 1000 Ha ltac:(lia)) as Hf.
  by destruct (true_quotient a 1000).
Qed.

Lemma true_quotient_nonneg (a : Z) :
  0 <= a < 2 ^ 1023 -> float_le float_zero (true_quotient a 1000) = true.
Proof.
  intros [Ha Hlt].
  pose proof (true_quotient_finite a 1000 ltac:(lia) ltac:(lia)) as Hf.
  replace (a <? 0) with false in Hf by (symmetry; apply Z.ltb_ge; lia).
  destruct (true_quotient a 1000) as [s| | |s m e]; simpl in Hf; try done.
  by subst s.
Qed.

(** ** Running the primitives *)

Lemma world_eta (w : World) :
  {| heap := heap w; _tracer := _tracer w; clock_reads := clock_reads w;
     synchronize_calls := synchronize_calls w; written := written w |} = w.
Proof. by destruct w. Qed.

Lemma load_some (w : World) (l : loc) (obj : instance) :
  heap w !! l = Some obj -> load l w = (Return obj, w).
Proof. intros H. unfold load, bind, get_world. by rewrite H. Qed.

Lemma getattr_chrome {A : Type} (w : World) (self : loc)
  (a : ChromeTracerAttrs) (attr : ChromeTracerAttrs -> A) :
  is_chrome w self a -> getattr self attr w = (Return (attr a), w).
Proof. intros H. unfold getattr, bind. by rewrite (load_some _ _ _ H). Qed.

Lemma setattr_chrome (w : World) (self : loc) (a : ChromeTracerAttrs)
  (setter : ChromeTracerAttrs -> ChromeTracerAttrs) :
  is_chrome w self a ->
  setattr self setter w = (Return tt, put_attrs self (setter a) w).
Proof. intros H. unfold setattr, bind. by rewrite (load_some _ _ _ H). Qed.

Lemma is_chrome_put_attrs (w : World) (self : loc) (a : ChromeTracerAttrs) :
  is_chrome (put_attrs self a w) self a.
Proof. unfold is_chrome, put_attrs; simpl. apply lookup_insert_eq. Qed.

Lemma put_attrs_put_attrs (w : World) (self : loc) (a b : ChromeTracerAttrs) :
  put_attrs self b (put_attrs self a w) = put_attrs self b w.
Proof. unfold put_attrs, set_heap; simpl. by rewrite insert_insert_eq. Qed.

Lemma put_attrs_same (w : World) (self : loc) (a : ChromeTracerAttrs) :
  is_chrome w self a -> put_attrs self a w = w.
Proof.
  intros H. unfold put_attrs, set_heap. rewrite insert_id by done.
  apply world_eta.
Qed.

Lemma attrs_eta (a : ChromeTracerAttrs) :
  {| _enable := _enable a; _event_list := _event_list a;
     _max_event_count := _max_event_count a; _event_count := _event_count a;
     _is_cuda_available := _is_cuda_available a; _pid := _pid a |} = a.
Proof. by destruct a. Qed.

Lemma in_range_abs (host : Host) (i : nat) :
  clock_in_range host -> Z.abs (perf_counter_ns_at host i) < 2 ^ 1023.
Proof.
  intros H. specialize (H i).
  assert (2 ^ 63 < 2 ^ 1023) by (apply Z.pow_lt_mono_r; lia). lia.
Qed.

Lemma in_range_diff_abs (host : Host) (i j : nat) :
  clock_in_range host ->
  Z.abs (perf_counter_ns_at host j - perf_counter_ns_at host i) < 2 ^ 1023.
Proof.
  intros H. pose proof (H i). pose proof (H j).
  assert (2 ^ 64 < 2 ^ 1023) by (apply Z.pow_lt_mono_r; lia).
  change (2 ^ 64) with (2 * 2 ^ 63) in *. lia.
Qed.

(** ** One span of a [ChromeTracer] *)

Section OneSpan.

Variable host : Host.
Hypothesis in_range : clock_in_range host.
Hypothesis barrier : barrier_returns host.

Lemma add_event_finally_run (w : World) (self : loc) (name : string)
  (i : nat) (a : ChromeTracerAttrs) :
  is_chrome w self a ->
  ChromeTracer.add_event_finally host self name (perf_counter_ns_at host i) w
  = (Return tt, span_end host self name (perf_counter_ns_at host i) a w).
Proof.
  intros Hself. unfold ChromeTracer.add_event_finally, span_end, records.
  unfold bind at 1. rewrite (getattr_chrome _ _ _ _ Hself).
  destruct (_enable a) eqn:Hen; simpl andb.
  2:{ reflexivity. }
  unfold bind at 1. unfold bind at 1.
  rewrite (getattr_chrome _ _ _ _ Hself).
  unfold bind at 1. rewrite (getattr_chrome _ _ _ _ Hself).
  unfold ret at 1.
  destruct (lt_max (_event_count a) (_max_event_count a)) eqn:Hlt.
  2:{ reflexivity. }
  unfold bind at 1. rewrite (getattr_chrome _ _ _ _ Hself).
  assert (Hsync :
    (if _is_cuda_available a then cuda_synchronize host else ret tt) w
    = (Return tt, synchronized a w)).
  { unfold synchronized. destruct (_is_cuda_available a); [|done].
    unfold cuda_synchronize, bind, get_world, modify_world.
    by rewrite barrier. }
  unfold bind at 1. rewrite Hsync.
  assert (Hself' : is_chrome (synchronized a w) self a).
  { unfold synchronized, is_chrome. by destruct (_is_cuda_available a). }
  unfold bind at 1. rewrite (getattr_chrome _ _ _ _ Hself').
  unfold bind at 1. rewrite (setattr_chrome _ _ _ _ Hself').
  set (w1 := put_attrs self _ (synchronized a w)).
  unfold bind at 1.
  unfold perf_counter_ns, get_native_id, lift, bind, get_world,
    modify_world, ret.
  assert (Hreads : clock_reads w1 = clock_reads w).
  { subst w1. unfold synchronized. by destruct (_is_cuda_available a). }
  rewrite Hreads.
  rewrite int_true_divide_in_range by (by apply in_range_abs).
  rewrite int_true_divide_in_range by (by apply in_range_diff_abs).
  set (w2 := set_clock_reads _ w1).
  assert (Hself2 : is_chrome w2 self (set_event_count (_event_count a + 1) a)).
  { subst w2 w1. unfold is_chrome. simpl. apply lookup_insert_eq. }
  rewrite (getattr_chrome _ _ _ _ Hself2).
  rewrite (getattr_chrome _ _ _ _ Hself2).
  rewrite (setattr_chrome _ _ _ _ Hself2).
  f_equal. subst w2 w1. unfold put_attrs, set_heap, set_clock_reads; simpl.
  rewrite insert_insert_eq. reflexivity.
Qed.

End OneSpan.

(** ** Spans of a [ChromeTracer] *)

Section Spans.

Variable host : Host.
Hypothesis in_range : clock_in_range host.
Hypothesis barrier : barrier_returns host.

Lemma method_add_event_chrome (w : World) (self : loc) (a : ChromeTracerAttrs) :
  is_chrome w self a ->
  method (own_add_event host) "add_event" self w
  = (Return (ChromeTracer.add_event host), w).
Proof. intros H. unfold method, bind. by rewrite (load_some _ _ _ H). Qed.

(** A span ends as its block ends, in the world that [span_end] describes. *)
Lemma span_chrome (w w1 : World) (self : loc) (name : string) (body : M unit)
  (a a1 : ChromeTracerAttrs) (r : outcome unit) :
  is_chrome w self a ->
  body (block_start w) = (r, w1) ->
  is_chrome w1 self a1 ->
  span host self name body w
  = (r, span_end host self name
          (perf_counter_ns_at host (clock_reads w)) a1 w1).
Proof.
  intros Hself Hbody Hself1. unfold block_start in Hbody.
  unfold span, with_, call_add_event.
  unfold bind at 1. unfold bind at 1.
  rewrite (method_add_event_chrome _ _ _ Hself).
  unfold ChromeTracer.add_event, perf_counter_ns.
  unfold bind at 1 2 3. unfold get_world, modify_world, ret.
  unfold bind at 1. unfold attempt. rewrite Hbody.
  destruct r as [[]|e]; unfold try_finally, yield_, ret, raise;
    by rewrite (add_event_finally_run host in_range barrier _ _ _ _ _ Hself1).
Qed.

Lemma recorded_count_records (a : ChromeTracerAttrs) (ev : Event) (n : nat) :
  records a = true ->
  recorded_count a (S n) = S (recorded_count (with_event ev a) n).
Proof.
  unfold records, recorded_count, lt_max. simpl.
  destruct (_enable a); [|done]. simpl.
  destruct (_max_event_count a) as [k|]; [|done].
  intros H%Z.ltb_lt. lia.
Qed.

Lemma recorded_count_full (a : ChromeTracerAttrs) (n : nat) :
  records a = false -> recorded_count a n = 0%nat.
Proof.
  unfold records, recorded_count, lt_max.
  destruct (_enable a); [|done]. simpl.
  destruct (_max_event_count a) as [k|]; [|done].
  intros H%Z.ltb_ge. lia.
Qed.

Lemma with_events_nil (a : ChromeTracerAttrs) : with_events [] a = a.
Proof.
  unfold with_events, set_event_list, set_event_count; simpl.
  rewrite app_nil_r, Z.add_0_r. apply attrs_eta.
Qed.

Lemma with_events_cons (ev : Event) (evs : list Event)
  (a : ChromeTracerAttrs) :
  with_events evs (with_event ev a) = with_events (ev :: evs) a.
Proof.
  unfold with_events, with_event, set_event_list, set_event_count; simpl.
  rewrite <- app_assoc. simpl. f_equal. lia.
Qed.

(** [n] spans in a row, none of which touches the tracer: the tracer records
    the first [recorded_count a n] of them and nothing else changes in it. *)
Lemma run_spans_chrome (self : loc) (spans : list (string * M unit)) :
  Forall (fun s => keeps_tracer self s.2) spans ->
  forall (w : World) (a : ChromeTracerAttrs),
  is_chrome w self a ->
  exists (rs : list (outcome unit)) (w' : World) (evs : list Event),
    run_spans host self spans w = (Return rs, w') /\
    is_chrome w' self (with_events evs a) /\
    length evs = recorded_count a (length spans) /\
    map ev_name evs = take (length evs) (map fst spans) /\
    (clock_monotonic host -> Forall dur_nonneg evs).
Proof.
  induction 1 as [|[name body] rest Hkeep _ IH]; intros w a Hself.
  - exists [], w, []. rewrite with_events_nil.
    repeat split; try done.
    unfold recorded_count. destruct (_enable a); [|done].
    destruct (_max_event_count a); simpl; lia.
  - simpl in Hkeep. simpl run_spans.
    destruct (body (set_clock_reads (S (clock_reads w)) w)) as [r w1] eqn:Hbody.
    destruct (Hkeep (set_clock_reads (S (clock_reads w)) w)) as [Hheap Hclock].
    rewrite Hbody in Hheap, Hclock. simpl in Hheap, Hclock.
    assert (Hself1 : is_chrome w1 self a) by (unfold is_chrome; by rewrite Hheap).
    pose proof (span_chrome _ _ _ name _ _ _ _ Hself Hbody Hself1) as Hspan.
    unfold bind at 1. unfold attempt. rewrite Hspan.
    unfold span_end.
    destruct (records a) eqn:Hrec.
    + set (ev := recorded_event _ _ _ _ _).
      set (w2 := put_attrs self (with_event ev a) _).
      destruct (IH w2 (with_event ev a)) as (rs & w' & evs & Hrun & Hs & Hlen & Hnames & Hdur).
      { apply is_chrome_put_attrs. }
      exists (r :: rs), w', (ev :: evs).
      unfold bind at 1. rewrite Hrun.
      rewrite with_events_cons in Hs.
      repeat split; try done.
      * simpl. rewrite Hlen. symmetry. by apply recorded_count_records.
      * simpl. by rewrite Hnames.
      * intros Hmono. constructor; [|by apply Hdur].
        unfold dur_nonneg, ev, recorded_event; simpl.
        apply true_quotient_nonneg.
        pose proof (Hmono (clock_reads w) (clock_reads w1) ltac:(lia)).
        pose proof (in_range (clock_reads w)). pose proof (in_range (clock_reads w1)).
        assert (2 ^ 64 < 2 ^ 1023) by (apply Z.pow_lt_mono_r; lia).
        change (2 ^ 64) with (2 * 2 ^ 63) in *. lia.
    + destruct (IH w1 a Hself1) as (rs & w' & evs & Hrun & Hs & Hlen & Hnames & Hdur).
      exists (r :: rs), w', evs.
      unfold bind at 1. rewrite Hrun.
      assert (Hnone : evs = []).
      { apply length_zero_iff_nil. rewrite Hlen. by apply recorded_count_full. }
      subst evs. repeat split; try done.
      simpl. symmetry. by apply recorded_count_full.
Qed.

End Spans.

(** ** When the device barrier fails *)

(** The assumption [barrier_returns] is needed: when the barrier of a
    recording span raises, the [finally] block stops there, nothing is
    recorded, and that exception is the outcome of the span whatever the
    block did. *)
Lemma span_barrier_failure (host : Host) (w w1 : World) (self : loc)
  (name : string) (body : M unit) (a a1 : ChromeTracerAttrs)
  (r : outcome unit) (e' : exn) :
  is_chrome w self a ->
  body (block_start w) = (r, w1) ->
  is_chrome w1 self a1 ->
  records a1 = true ->
  _is_cuda_available a1 = true ->
  synchronize_at host (synchronize_calls w1) = Some e' ->
  span host self name body w
  = (Raise e', set_synchronize_calls (S (synchronize_calls w1)) w1).
Proof.
  intros Hself Hbody Hself1 Hrec Hcuda Hfail. unfold block_start in Hbody.
  unfold records in Hrec. apply andb_true_iff in Hrec as [Hen Hlt].
  assert (Hfin : forall begin_ns : Z,
    ChromeTracer.add_event_finally host self name begin_ns w1
    = (Raise e', set_synchronize_calls (S (synchronize_calls w1)) w1)).
  { intros begin_ns. unfold ChromeTracer.add_event_finally.
    unfold bind at 1. rewrite (getattr_chrome _ _ _ _ Hself1), Hen.
    unfold bind at 1. unfold bind at 1.
    rewrite (getattr_chrome _ _ _ _ Hself1).
    unfold bind at 1. rewrite (getattr_chrome _ _ _ _ Hself1).
    unfold ret at 1. rewrite Hlt.
    unfold bind at 1. rewrite (getattr_chrome _ _ _ _ Hself1), Hcuda.
    unfold bind at 1.
    unfold cuda_synchronize, bind, get_world, modify_world.
    by rewrite Hfail. }
  unfold span, with_, call_add_event.
  unfold bind at 1. unfold bind at 1.
  rewrite (method_add_event_chrome _ _ _ _ Hself).
  unfold ChromeTracer.add_event, perf_counter_ns.
  unfold bind at 1 2 3. unfold get_world, modify_world, ret.
  unfold bind at 1. unfold attempt. rewrite Hbody.
  destruct r as [[]|e]; unfold try_finally, yield_, ret, raise;
    by rewrite Hfin.
Qed.

(** ** The event cap *)

Lemma cpu_host_in_range : clock_in_range cpu_host.
Proof.
  intros i. unfold cpu_host; simpl.
  change (2 ^ 63) with 9223372036854775808. lia.
Qed.

Lemma cpu_host_barrier : barrier_returns cpu_host.
Proof. by intros i. Qed.

Lemma cpu_host_monotonic : clock_monotonic cpu_host.
Proof. intros i j Hij. unfold cpu_host; simpl. lia. Qed.


Lemma keeps_tracer_raise (self : loc) (e : exn) : keeps_tracer self (raise e).
Proof. intros w. simpl. split; [done|lia]. Qed.

Lemma take_min_length {A : Type} (l : list A) (k : Z) :
  0 <= k ->
  take (Z.to_nat (Z.min (Z.of_nat (length l)) k)) l = take (Z.to_nat k) l.
Proof.
  intros Hk. destruct (Z.le_gt_cases k (Z.of_nat (length l))).
  - by rewrite Z.min_r by lia.
  - rewrite Z.min_l by lia. rewrite !take_ge by lia. done.
Qed.

(** C1. [add_event] keeps the claim on the cap that the tracer stores: an
    enabled tracer with an empty buffer and the stored cap [K], [K >= 0],
    holds [min N K] records after [N] completed spans, those of the first
    spans, and the event counter equals the buffer length; so the buffer
    length never exceeds the cap, and for [N > K] the buffer holds exactly
    [K] records, none when [K] is zero.  The constructor stores
    [max_event_count = K] as the cap for every [K] but zero.  For zero it
    stores the unbounded sentinel, [max_event_count or float("inf")] taking
    zero for a missing cap, and the tracer so constructed records every
    span: there the code leaves the claim. *)
Theorem max_event_count_caps_buffer (host : Host) (self : loc)
  (spans : list (string * M unit)) :
  clock_in_range host ->
  barrier_returns host ->
  Forall (fun s => keeps_tracer self s.2) spans ->
  (forall (K : Z) (w : World) (a : ChromeTracerAttrs),
     0 <= K ->
     is_chrome w self a ->
     _enable a = true ->
     _max_event_count a = Bounded K ->
     _event_list a = [] ->
     _event_count a = 0 ->
     exists (rs : list (outcome unit)) (w' : World) (a' : ChromeTracerAttrs),
       run_spans host self spans w = (Return rs, w') /\
       is_chrome w' self a' /\
       _enable a' = true /\
       _max_event_count a' = Bounded K /\
       Z.of_nat (length (_event_list a')) = Z.min (Z.of_nat (length spans)) K /\
       _event_count a' = Z.of_nat (length (_event_list a')) /\
       map ev_name (_event_list a') = take (Z.to_nat K) (map fst spans) /\
       Z.of_nat (length (_event_list a')) <= K /\
       (K < Z.of_nat (length spans) ->
        Z.of_nat (length (_event_list a')) = K)) /\
  (forall (K : Z) (enable : bool),
     K <> 0 ->
     ChromeTracer.__init__ host (Some K) enable
     = {| _enable := enable; _event_list := [];
          _max_event_count := Bounded K; _event_count := 0;
          _is_cuda_available := cuda_is_available host;
          _pid := getpid host |}) /\
  (forall enable : bool,
     ChromeTracer.__init__ host (Some 0) enable
     = {| _enable := enable; _event_list := [];
          _max_event_count := Unbounded; _event_count := 0;
          _is_cuda_available := cuda_is_available host;
          _pid := getpid host |}) /\
  (forall w : World,
     is_chrome w self (ChromeTracer.__init__ host (Some 0) true) ->
     exists (rs : list (outcome unit)) (w' : World) (a' : ChromeTracerAttrs),
       run_spans host self spans w = (Return rs, w') /\
       is_chrome w' self a' /\
       length (_event_list a') = length spans).
Proof.
  intros Hrange Hbarrier Hkeep. split; [|split; [|split]].
  - intros K w a HK Hself Hen Hmax Hev Hc.
    destruct (run_spans_chrome host Hrange Hbarrier self spans Hkeep w _ Hself)
      as (rs & w' & evs & Hrun & Hs & Hlen & Hnames & _).
    exists rs, w', (with_events evs a).
    unfold recorded_count in Hlen. rewrite Hen, Hmax, Hc in Hlen.
    split; [done|]. split; [done|].
    unfold with_events; simpl. rewrite Hev, Hc, Hen, Hmax. simpl.
    repeat split; try done; try lia.
    rewrite Hnames. replace (length evs) with
      (Z.to_nat (Z.min (Z.of_nat (length (map fst spans))) K))
      by (rewrite length_map; lia).
    by apply take_min_length.
  - intros K enable HK. unfold ChromeTracer.__init__, or_inf, truthy.
    by destruct (Z.eqb_spec K 0).
  - done.
  - intros w Hself.
    destruct (run_spans_chrome host Hrange Hbarrier self spans Hkeep w _ Hself)
      as (rs & w' & evs & Hrun & Hs & Hlen & _).
    change (length evs = length spans) in Hlen.
    exists rs, w', (with_events evs (ChromeTracer.__init__ host (Some 0) true)).
    by repeat split.
Qed.

Lemma max_event_count_caps_buffer_witness :
  let spans : list (string * M unit) :=
    [("a", ret tt); ("b", raise (UserException "ValueError" "b")); ("c", ret tt)] in
  let w := world_with (ChromeTracer.__init__ cpu_host (Some 2) true) in
  exists (rs : list (outcome unit)) (w' : World) (a' : ChromeTracerAttrs),
    run_spans cpu_host 0%nat spans w = (Return rs, w') /\
    is_chrome w' 0%nat a' /\
    _enable a' = true /\
    _max_event_count a' = Bounded 2 /\
    Z.of_nat (length (_event_list a')) = Z.min (Z.of_nat (length spans)) 2 /\
    _event_count a' = Z.of_nat (length (_event_list a')) /\
    map ev_name (_event_list a') = take (Z.to_nat 2) (map fst spans) /\
    Z.of_nat (length (_event_list a')) <= 2 /\
    (2 < Z.of_nat (length spans) -> Z.of_nat (length (_event_list a')) = 2).
Proof.
  intros spans w.
  assert (Hkeep : Forall (fun s : string * M unit => keeps_tracer 0%nat s.2) spans)
    by (repeat constructor; simpl; lia).
  apply (proj1 (max_event_count_caps_buffer cpu_host 0%nat spans
                  cpu_host_in_range cpu_host_barrier Hkeep)
           2 w (ChromeTracer.__init__ cpu_host (Some 2) true)).
  - lia.
  - apply is_chrome_put_attrs.
  - reflexivity.
  - reflexivity.
  - reflexivity.
  - reflexivity.
Defined.

(** The input on which the code leaves C1: after one span ([N = 1 > K]) the
    buffer of a tracer constructed with [max_event_count = 0] holds one
    record, not zero. *)
Lemma max_event_count_zero_counterexample :
  let spans : list (string * M unit) := [("a", ret tt)] in
  let w := world_with (ChromeTracer.__init__ cpu_host (Some 0) true) in
  0 < Z.of_nat (length spans) /\
  exists (rs : list (outcome unit)) (w' : World) (a' : ChromeTracerAttrs),
    run_spans cpu_host 0%nat spans w = (Return rs, w') /\
    is_chrome w' 0%nat a' /\
    Z.of_nat (length (_event_list a')) = 1 /\
    Z.of_nat (length (_event_list a')) <> 0.
Proof.
  intros spans w. split; [simpl; lia|].
  destruct (run_spans_chrome cpu_host cpu_host_in_range cpu_host_barrier
              0%nat spans
              ltac:(repeat constructor; simpl; lia) w _
              (is_chrome_put_attrs _ _ _))
    as (rs & w' & evs & Hrun & Hs & Hlen & _).
  exists rs, w', (with_events evs (ChromeTracer.__init__ cpu_host (Some 0) true)).
  change (length evs = 1%nat) in Hlen. simpl. rewrite Hlen.
  repeat split; try done.
Qed.

(** C2. The cap check of [add_event] does what the claim says on a stored
    cap of zero: it fails for every span of a tracer whose counter is not
    negative, enabled or not, and no record is appended.  The constructor
    does not store zero, though: zero is falsy, so
    [max_event_count or float("inf")] stores the unbounded sentinel exactly
    as for [None]; the cap check then succeeds whatever the counter is, and
    an enabled tracer constructed with [max_event_count = 0] appends one
    record per span.  There the code leaves the claim.  Of the caps next to
    zero, a negative one records nothing from the start. *)
Theorem max_event_count_zero_is_unbounded (host : Host) (w : World)
  (self : loc) (spans : list (string * M unit)) :
  clock_in_range host ->
  barrier_returns host ->
  Forall (fun s => keeps_tracer self s.2) spans ->
  (forall enable : bool,
     ChromeTracer.__init__ host (Some 0) enable
     = ChromeTracer.__init__ host None enable /\
     _max_event_count (ChromeTracer.__init__ host (Some 0) enable) = Unbounded) /\
  (forall count : Z, lt_max count (or_inf (Some 0)) = true) /\
  (is_chrome w self (ChromeTracer.__init__ host (Some 0) true) ->
   exists (rs : list (outcome unit)) (w' : World) (a' : ChromeTracerAttrs),
     run_spans host self spans w = (Return rs, w') /\
     is_chrome w' self a' /\
     length (_event_list a') = length spans /\
     map ev_name (_event_list a') = map fst spans) /\
  (forall K : Z, K < 0 ->
   is_chrome w self (ChromeTracer.__init__ host (Some K) true) ->
   exists (rs : list (outcome unit)) (w' : World),
     run_spans host self spans w = (Return rs, w') /\
     is_chrome w' self (ChromeTracer.__init__ host (Some K) true)) /\
  (forall a : ChromeTracerAttrs,
     is_chrome w self a ->
     _max_event_count a = Bounded 0 ->
     0 <= _event_count a ->
     (forall count : Z, 0 <= count -> lt_max count (_max_event_count a) = false) /\
     exists (rs : list (outcome unit)) (w' : World),
       run_spans host self spans w = (Return rs, w') /\
       is_chrome w' self a).
Proof.
  intros Hrange Hbarrier Hkeep. split; [done|]. split; [done|]. split; [|split].
  - intros Hself.
    destruct (run_spans_chrome host Hrange Hbarrier self spans Hkeep w _ Hself)
      as (rs & w' & evs & Hrun & Hs & Hlen & Hnames & _).
    change (length evs = length spans) in Hlen.
    exists rs, w', (with_events evs (ChromeTracer.__init__ host (Some 0) true)).
    repeat split; try done. simpl. rewrite Hnames, Hlen.
    apply take_ge. by rewrite length_map.
  - intros K HK Hself.
    destruct (run_spans_chrome host Hrange Hbarrier self spans Hkeep w _ Hself)
      as (rs & w' & evs & Hrun & Hs & Hlen & _).
    assert (Hnone : evs = []).
    { apply length_zero_iff_nil. rewrite Hlen.
      unfold recorded_count; simpl. unfold or_inf, truthy.
      destruct (Z.eqb_spec K 0); [lia|]. simpl. lia. }
    subst evs. rewrite with_events_nil in Hs. by exists rs, w'.
  - intros a Hself Hmax Hcount. split.
    + intros count Hc. rewrite Hmax. simpl. apply Z.ltb_ge. lia.
    + destruct (run_spans_chrome host Hrange Hbarrier self spans Hkeep w _ Hself)
        as (rs & w' & evs & Hrun & Hs & Hlen & _).
      assert (Hnone : evs = []).
      { apply length_zero_iff_nil. rewrite Hlen.
        unfold recorded_count. rewrite Hmax.
        destruct (_enable a); lia. }
      subst evs. rewrite with_events_nil in Hs. by exists rs, w'.
Qed.

Lemma max_event_count_zero_is_unbounded_witness :
  let spans : list (string * M unit) := [("a", ret tt); ("b", ret tt)] in
  let w := world_with (ChromeTracer.__init__ cpu_host (Some 0) true) in
  clock_in_range cpu_host /\
  barrier_returns cpu_host /\
  Forall (fun s : string * M unit => keeps_tracer 0%nat s.2) spans /\
  is_chrome w 0%nat (ChromeTracer.__init__ cpu_host (Some 0) true) /\
  exists (rs : list (outcome unit)) (w' : World) (a' : ChromeTracerAttrs),
    run_spans cpu_host 0%nat spans w = (Return rs, w') /\
    is_chrome w' 0%nat a' /\
    length (_event_list a') = length spans /\
    map ev_name (_event_list a') = map fst spans.
Proof.
  intros spans w.
  assert (Hrange : clock_in_range cpu_host) by apply cpu_host_in_range.
  assert (Hbarrier : barrier_returns cpu_host) by apply cpu_host_barrier.
  assert (Hkeep : Forall (fun s : string * M unit => keeps_tracer 0%nat s.2) spans)
    by (repeat constructor; simpl; lia).
  assert (Hself : is_chrome w 0%nat (ChromeTracer.__init__ cpu_host (Some 0) true))
    by apply is_chrome_put_attrs.
  split; [exact Hrange|]. split; [exact Hbarrier|].
  split; [exact Hkeep|]. split; [exact Hself|].
  exact (proj1 (proj2 (proj2
    (max_event_count_zero_is_unbounded cpu_host w 0%nat spans
       Hrange Hbarrier Hkeep)))
    Hself).
Defined.

(** The input on which the code leaves C2: the cap check of a tracer
    constructed with [max_event_count = 0] succeeds, and a span appends a
    record. *)
Lemma max_event_count_zero_records_counterexample :
  let a := ChromeTracer.__init__ cpu_host (Some 0) true in
  records a = true /\
  exists (w' : World) (a' : ChromeTracerAttrs),
    span cpu_host 0%nat "step" (ret tt) (world_with a) = (Return tt, w') /\
    is_chrome w' 0%nat a' /\
    length (_event_list a) = 0%nat /\
    length (_event_list a') = 1%nat.
Proof.
  intros a. split; [done|].
  eexists _, _. split.
  - eapply (span_chrome cpu_host cpu_host_in_range cpu_host_barrier
              _ _ 0%nat "step" (ret tt) a a).
    + apply is_chrome_put_attrs.
    + reflexivity.
    + apply is_chrome_put_attrs.
  - unfold span_end. change (records a) with true. cbv iota.
    split; [apply is_chrome_put_attrs|]. done.
Qed.

(** ** Unbounded recording *)

(** C5. For every sequence of [N] completed [add_event] spans on an enabled
    [ChromeTracer] with unbounded [max_event_count] and an empty buffer, the
    buffer holds exactly [N] records, one per span in order, and every record
    has a duration greater than or equal to zero. *)
Theorem unbounded_records_every_span (host : Host) (w : World) (self : loc)
  (a : ChromeTracerAttrs) (spans : list (string * M unit)) :
  clock_in_range host ->
  clock_monotonic host ->
  barrier_returns host ->
  is_chrome w self a ->
  _enable a = true ->
  _max_event_count a = Unbounded ->
  _event_list a = [] ->
  Forall (fun s => keeps_tracer self s.2) spans ->
  exists (rs : list (outcome unit)) (w' : World) (a' : ChromeTracerAttrs),
    run_spans host self spans w = (Return rs, w') /\
    is_chrome w' self a' /\
    length (_event_list a') = length spans /\
    map ev_name (_event_list a') = map fst spans /\
    Forall (fun ev => float_le float_zero (ev_dur ev) = true) (_event_list a').
Proof.
  intros Hrange Hmono Hbarrier Hself Hen Hmax Hev Hkeep.
  destruct (run_spans_chrome host Hrange Hbarrier self spans Hkeep w _ Hself)
    as (rs & w' & evs & Hrun & Hs & Hlen & Hnames & Hdur).
  unfold recorded_count in Hlen. rewrite Hen, Hmax in Hlen.
  exists rs, w', (with_events evs a).
  split; [done|]. split; [done|].
  unfold with_events; simpl. rewrite Hev; simpl.
  repeat split; try done.
  - rewrite Hnames, Hlen. apply take_ge. by rewrite length_map.
  - by apply Hdur.
Qed.

Lemma unbounded_records_every_span_witness :
  let spans : list (string * M unit) :=
    [("forward", ret tt); ("backward", raise (UserException "RuntimeError" "x"))] in
  let a := ChromeTracer.__init__ cpu_host None true in
  exists (rs : list (outcome unit)) (w' : World) (a' : ChromeTracerAttrs),
    run_spans cpu_host 0%nat spans (world_with a) = (Return rs, w') /\
    is_chrome w' 0%nat a' /\
    length (_event_list a') = length spans /\
    map ev_name (_event_list a') = map fst spans /\
    Forall (fun ev => float_le float_zero (ev_dur ev) = true) (_event_list a').
Proof.
  intros spans a.
  apply (unbounded_records_every_span cpu_host (world_with a) 0%nat a spans).
  - apply cpu_host_in_range.
  - apply cpu_host_monotonic.
  - apply cpu_host_barrier.
  - apply is_chrome_put_attrs.
  - reflexivity.
  - reflexivity.
  - reflexivity.
  - repeat constructor; simpl; lia.
Defined.

(** ** Errors of the traced block *)

(** The [finally] block of a span whose device barrier, if the tracer calls
    it, returns at this call. *)
Lemma add_event_finally_run_at (host : Host) (w : World) (self : loc)
  (name : string) (i : nat) (a : ChromeTracerAttrs) :
  clock_in_range host ->
  is_chrome w self a ->
  (_is_cuda_available a = true ->
   synchronize_at host (synchronize_calls w) = None) ->
  ChromeTracer.add_event_finally host self name (perf_counter_ns_at host i) w
  = (Return tt, span_end host self name (perf_counter_ns_at host i) a w).
Proof.
  intros Hrange Hself Hbarrier.
  unfold ChromeTracer.add_event_finally, span_end, records.
  unfold bind at 1. rewrite (getattr_chrome _ _ _ _ Hself).
  destruct (_enable a) eqn:Hen; simpl andb.
  2:{ reflexivity. }
  unfold bind at 1. unfold bind at 1.
  rewrite (getattr_chrome _ _ _ _ Hself).
  unfold bind at 1. rewrite (getattr_chrome _ _ _ _ Hself).
  unfold ret at 1.
  destruct (lt_max (_event_count a) (_max_event_count a)) eqn:Hlt.
  2:{ reflexivity. }
  unfold bind at 1. rewrite (getattr_chrome _ _ _ _ Hself).
  assert (Hsync :
    (if _is_cuda_available a then cuda_synchronize host else ret tt) w
    = (Return tt, synchronized a w)).
  { unfold synchronized. destruct (_is_cuda_available a); [|done].
    unfold cuda_synchronize, bind, get_world, modify_world.
    by rewrite (Hbarrier eq_refl). }
  unfold bind at 1. rewrite Hsync.
  assert (Hself' : is_chrome (synchronized a w) self a).
  { unfold synchronized, is_chrome. by destruct (_is_cuda_available a). }
  unfold bind at 1. rewrite (getattr_chrome _ _ _ _ Hself').
  unfold bind at 1. rewrite (setattr_chrome _ _ _ _ Hself').
  set (w1 := put_attrs self _ (synchronized a w)).
  unfold bind at 1.
  unfold perf_counter_ns, get_native_id, lift, bind, get_world,
    modify_world, ret.
  assert (Hreads : clock_reads w1 = clock_reads w).
  { subst w1. unfold synchronized. by destruct (_is_cuda_available a). }
  rewrite Hreads.
  rewrite int_true_divide_in_range by (by apply in_range_abs).
  rewrite int_true_divide_in_range by (by apply in_range_diff_abs).
  set (w2 := set_clock_reads _ w1).
  assert (Hself2 : is_chrome w2 self (set_event_count (_event_count a + 1) a)).
  { subst w2 w1. unfold is_chrome. simpl. apply lookup_insert_eq. }
  rewrite (getattr_chrome _ _ _ _ Hself2).
  rewrite (getattr_chrome _ _ _ _ Hself2).
  rewrite (setattr_chrome _ _ _ _ Hself2).
  f_equal. subst w2 w1. unfold put_attrs, set_heap, set_clock_reads; simpl.
  rewrite insert_insert_eq. reflexivity.
Qed.

(** C7 (amended). If the block of a span raises [e], the tracer is enabled
    and under its cap when the block ends, and the device barrier of the
    [finally] block, which is called only by a tracer that found an
    accelerator, returns, then the span finalizes: the event counter is
    incremented and a record is appended whose duration runs from the start
    of the span to the first clock reading after the failure; then [e] itself
    is what the [with] statement raises. *)
Theorem span_finalizes_and_reraises (host : Host) (w w1 : World) (self : loc)
  (name : string) (body : M unit) (a a1 : ChromeTracerAttrs) (e : exn) :
  clock_in_range host ->
  is_chrome w self a ->
  body (block_start w) = (Raise e, w1) ->
  is_chrome w1 self a1 ->
  _enable a1 = true ->
  lt_max (_event_count a1) (_max_event_count a1) = true ->
  (_is_cuda_available a1 = true ->
   synchronize_at host (synchronize_calls w1) = None) ->
  exists (w2 : World) (a2 : ChromeTracerAttrs) (ev : Event),
    span host self name body w = (Raise e, w2) /\
    is_chrome w2 self a2 /\
    _event_count a2 = _event_count a1 + 1 /\
    _event_list a2 = _event_list a1 ++ [ev] /\
    ev_name ev = name /\
    ev_ts ev = true_quotient (perf_counter_ns_at host (clock_reads w)) 1000 /\
    ev_dur ev =
      true_quotient (perf_counter_ns_at host (clock_reads w1)
                     - perf_counter_ns_at host (clock_reads w)) 1000.
Proof.
  intros Hrange Hself Hbody Hself1 Hen Hlt Hbarrier.
  unfold block_start in Hbody.
  assert (Hspan :
    span host self name body w
    = (Raise e, span_end host self name
                  (perf_counter_ns_at host (clock_reads w)) a1 w1)).
  { unfold span, with_, call_add_event.
    unfold bind at 1. unfold bind at 1.
    rewrite (method_add_event_chrome _ _ _ _ Hself).
    unfold ChromeTracer.add_event, perf_counter_ns.
    unfold bind at 1 2 3. unfold get_world, modify_world, ret.
    unfold bind at 1. unfold attempt. rewrite Hbody.
    unfold try_finally, yield_, ret, raise.
    by rewrite (add_event_finally_run_at host _ _ _ _ _ Hrange Hself1 Hbarrier). }
  rewrite Hspan.
  unfold span_end, records. rewrite Hen, Hlt. simpl andb. cbv iota.
  eexists _, _, _. split; [reflexivity|].
  split; [apply is_chrome_put_attrs|]. done.
Qed.

Lemma span_finalizes_and_reraises_witness :
  let a := ChromeTracer.__init__ gpu_host (Some 3) true in
  let e := UserException "ValueError" "bad batch" in
  exists (w2 : World) (a2 : ChromeTracerAttrs) (ev : Event),
    span gpu_host 0%nat "train" (raise e) (world_with a) = (Raise e, w2) /\
    is_chrome w2 0%nat a2 /\
    _event_count a2 = _event_count a + 1 /\
    _event_list a2 = _event_list a ++ [ev] /\
    ev_name ev = "train" /\
    ev_ts ev
    = true_quotient (perf_counter_ns_at gpu_host 0%nat) 1000 /\
    ev_dur ev
    = true_quotient (perf_counter_ns_at gpu_host 1%nat
                     - perf_counter_ns_at gpu_host 0%nat) 1000.
Proof.
  intros a e.
  apply (span_finalizes_and_reraises gpu_host (world_with a)
           (block_start (world_with a)) 0%nat "train" (raise e) a a e).
  - intros i. simpl. change (2 ^ 63) with 9223372036854775808. lia.
  - apply is_chrome_put_attrs.
  - reflexivity.
  - apply is_chrome_put_attrs.
  - reflexivity.
  - reflexivity.
  - reflexivity.
Defined.

(** C7, as stated, fails when the device barrier raises: the block of an
    enabled tracer under its cap raises [ValueError], yet the [with]
    statement raises the error of the barrier, and the tracer has recorded
    nothing. *)
Lemma span_error_replaced_counterexample :
  let a := ChromeTracer.__init__ failing_gpu_host (Some 3) true in
  let e := UserException "ValueError" "bad batch" in
  let e' := UserException "RuntimeError" "CUDA error" in
  let w := world_with a in
  _enable a = true /\
  lt_max (_event_count a) (_max_event_count a) = true /\
  (raise e : M unit) (block_start w) = (Raise e, block_start w) /\
  exists w2 : World,
    span failing_gpu_host 0%nat "train" (raise e) w = (Raise e', w2) /\
    is_chrome w2 0%nat a /\
    _event_list a = [] /\
    e' <> e.
Proof.
  intros a e e' w.
  split; [reflexivity|]. split; [reflexivity|]. split; [reflexivity|].
  exists (set_synchronize_calls 1 (block_start w)).
  split; [reflexivity|]. split; [reflexivity|]. split; [reflexivity|].
  discriminate.
Qed.

(** ** [clear] and [flush] *)

Lemma method_clear_chrome (w : World) (self : loc) (a : ChromeTracerAttrs) :
  is_chrome w self a ->
  method own_clear "clear" self w = (Return ChromeTracer.clear, w).
Proof. intros H. unfold method, bind. by rewrite (load_some _ _ _ H). Qed.

Lemma clear_chrome (w : World) (self : loc) (a : ChromeTracerAttrs) :
  is_chrome w self a ->
  ChromeTracer.clear self w
  = (Return tt, put_attrs self (set_event_count 0 (set_event_list [] a)) w).
Proof.
  intros Hself. unfold ChromeTracer.clear. unfold bind.
  rewrite (setattr_chrome _ _ _ _ Hself).
  rewrite (setattr_chrome _ _ _ _ (is_chrome_put_attrs _ _ _)).
  by rewrite put_attrs_put_attrs.
Qed.

(** C8. [ChromeTracer.clear] empties the event buffer and resets the event
    counter to zero; the enabled flag, the max event count and everything
    else in the world stay as they were. *)
Theorem clear_empties_buffer_and_counter (w : World) (self : loc)
  (a : ChromeTracerAttrs) :
  is_chrome w self a ->
  exists a' : ChromeTracerAttrs,
    ChromeTracer.clear self w = (Return tt, put_attrs self a' w) /\
    call_clear self w = (Return tt, put_attrs self a' w) /\
    _event_list a' = [] /\
    _event_count a' = 0 /\
    _enable a' = _enable a /\
    _max_event_count a' = _max_event_count a /\
    _is_cuda_available a' = _is_cuda_available a /\
    _pid a' = _pid a.
Proof.
  intros Hself. exists (set_event_count 0 (set_event_list [] a)).
  split; [by apply clear_chrome|]. split; [|done].
  unfold call_clear. unfold bind at 1.
  rewrite (method_clear_chrome _ _ _ Hself). by apply clear_chrome.
Qed.

Lemma clear_empties_buffer_and_counter_witness :
  let a := two_events false in
  exists a' : ChromeTracerAttrs,
    ChromeTracer.clear 0%nat (world_with a)
    = (Return tt, put_attrs 0%nat a' (world_with a)) /\
    call_clear 0%nat (world_with a)
    = (Return tt, put_attrs 0%nat a' (world_with a)) /\
    _event_list a' = [] /\
    _event_count a' = 0 /\
    _enable a' = _enable a /\
    _max_event_count a' = _max_event_count a /\
    _is_cuda_available a' = _is_cuda_available a /\
    _pid a' = _pid a.
Proof.
  intros a.
  apply (clear_empties_buffer_and_counter (world_with a) 0%nat a).
  apply is_chrome_put_attrs.
Defined.

(** C6. [ChromeTracer.flush] invokes the writer if and only if the recorder
    is enabled.  Disabled, it returns at once whatever the buffer holds and
    whatever the writer is; enabled, it is one call of the writer with the
    file name, the empty output directory, the whole event list and the save
    function.  With the recording writer: one more call is on record when
    enabled, none when disabled.  The same holds right after [enable]:
    [enable(False)] then [flush] writes nothing, [enable(True)] then [flush]
    hands over the event list as it was buffered. *)
Theorem flush_invokes_writer_iff_enabled (w : World) (self : loc)
  (a : ChromeTracerAttrs) (filename : string) :
  is_chrome w self a ->
  (forall writer : Writer,
     ChromeTracer.flush self filename writer w
     = if _enable a
       then writer filename "" (_event_list a) ChromeTracingSaveFunc w
       else (Return tt, w)) /\
  ChromeTracer.flush self filename recording_writer w
  = (Return tt,
     if _enable a
     then set_written (written w ++ [flush_call filename a]) w
     else w) /\
  (forall (enable_flag : bool) (writer : Writer),
     (let* _ := ChromeTracer.enable self enable_flag in
      ChromeTracer.flush self filename writer) w
     = let w' := put_attrs self (set_enable enable_flag a) w in
       if enable_flag
       then writer filename "" (_event_list a) ChromeTracingSaveFunc w'
       else (Return tt, w')).
Proof.
  intros Hself.
  assert (Hen : forall (enable_flag : bool) (writer : Writer),
     (let* _ := ChromeTracer.enable self enable_flag in
      ChromeTracer.flush self filename writer) w
     = let w' := put_attrs self (set_enable enable_flag a) w in
       if enable_flag
       then writer filename "" (_event_list a) ChromeTracingSaveFunc w'
       else (Return tt, w')).
  { intros enable_flag writer. unfold ChromeTracer.enable.
    unfold bind at 1. rewrite (setattr_chrome _ _ _ _ Hself).
    pose proof (is_chrome_put_attrs w self (set_enable enable_flag a))
      as Hself'.
    unfold ChromeTracer.flush. unfold bind at 1.
    rewrite (getattr_chrome _ _ _ _ Hself'). cbv zeta.
    destruct enable_flag; cbn [negb set_enable _enable]; cbv iota; [|done].
    unfold bind. by rewrite (getattr_chrome _ _ _ _ Hself'). }
  assert (Hany : forall writer : Writer,
    ChromeTracer.flush self filename writer w
    = if _enable a
      then writer filename "" (_event_list a) ChromeTracingSaveFunc w
      else (Return tt, w)).
  { intros writer. unfold ChromeTracer.flush. unfold bind at 1.
    rewrite (getattr_chrome _ _ _ _ Hself).
    destruct (_enable a); cbn [negb]; cbv iota zeta; [|done].
    unfold bind. by rewrite (getattr_chrome _ _ _ _ Hself). }
  split; [exact Hany|]. split; [|exact Hen].
  rewrite Hany. by destruct (_enable a).
Qed.

Lemma flush_invokes_writer_iff_enabled_witness :
  let off := world_with (two_events false) in
  let on := world_with (two_events true) in
  ((forall writer : Writer,
      ChromeTracer.flush 0%nat "trace.json" writer off = (Return tt, off)) /\
   ChromeTracer.flush 0%nat "trace.json" recording_writer off
   = (Return tt, off)) /\
  ((forall writer : Writer,
      ChromeTracer.flush 0%nat "trace.json" writer on
      = writer "trace.json" "" (_event_list (two_events true))
          ChromeTracingSaveFunc on) /\
   ChromeTracer.flush 0%nat "trace.json" recording_writer on
   = (Return tt,
      set_written [flush_call "trace.json" (two_events true)] on)).
Proof.
  intros off on.
  pose proof (flush_invokes_writer_iff_enabled off 0%nat (two_events false)
                "trace.json" (is_chrome_put_attrs _ _ _)) as Hoff.
  pose proof (flush_invokes_writer_iff_enabled on 0%nat (two_events true)
                "trace.json" (is_chrome_put_attrs _ _ _)) as Hon.
  split.
  - split; [exact (proj1 Hoff)|exact (proj1 (proj2 Hoff))].
  - split; [exact (proj1 Hon)|exact (proj1 (proj2 Hon))].
Defined.

(** ** The no-op tracer *)

(** C4. Of the four operations of a [DummyTracer], three are no-ops: a span
    is its block and nothing else, [clear] and [flush] return at once and the
    writer is not called.  [enable] is not: [DummyTracer] does not define it,
    the call resolves to [Tracer.enable] and raises [NotImplementedError]. *)
Theorem dummy_tracer_operations (host : Host) (w : World) (tracer : loc) :
  heap w !! tracer = Some DummyTracerInstance ->
  (forall (name : string) (body : M unit), span host tracer name body w = body w) /\
  call_clear tracer w = (Return tt, w) /\
  (forall (filename : string) (writer : Writer),
     call_flush tracer filename writer w = (Return tt, w)) /\
  (forall enable_flag : bool,
     call_enable tracer enable_flag w
     = (Raise (NotImplementedError "Tracers must implement enable"), w)).
Proof.
  intros Hobj. repeat split.
  - intros name body. unfold span, with_, call_add_event, method.
    unfold bind at 1 2 3. rewrite (load_some _ _ _ Hobj). simpl.
    unfold bind, attempt.
    destruct (body w) as [[[]|e] w1]; reflexivity.
  - unfold call_clear, method. unfold bind at 1 2.
    by rewrite (load_some _ _ _ Hobj).
  - intros filename writer. unfold call_flush, method. unfold bind at 1 2.
    by rewrite (load_some _ _ _ Hobj).
  - intros enable_flag. unfold call_enable, method. unfold bind at 1 2.
    by rewrite (load_some _ _ _ Hobj).
Qed.

Lemma dummy_tracer_operations_witness :
  (forall (name : string) (body : M unit),
     span cpu_host 0%nat name body dummy_world = body dummy_world) /\
  call_clear 0%nat dummy_world = (Return tt, dummy_world) /\
  (forall (filename : string) (writer : Writer),
     call_flush 0%nat filename writer dummy_world = (Return tt, dummy_world)) /\
  (forall enable_flag : bool,
     call_enable 0%nat enable_flag dummy_world
     = (Raise (NotImplementedError "Tracers must implement enable"),
        dummy_world)).
Proof.
  apply (dummy_tracer_operations cpu_host dummy_world 0%nat).
  reflexivity.
Defined.

(** ** The registry *)

Lemma alloc_fresh (obj : instance) (w : World) :
  let l := fresh (dom (heap w)) in
  heap w !! l = None /\
  alloc obj w = (Return l, set_heap (<[l := obj]> (heap w)) w).
Proof.
  intros l. split; [|reflexivity].
  apply not_elem_of_dom. apply is_fresh.
Qed.

Lemma construct_default (host : Host) (tracer_cls : TracerCls) (w : World) :
  construct host tracer_cls w = alloc (default_instance host tracer_cls) w.
Proof. by destruct tracer_cls. Qed.

Lemma class_of_default_instance (host : Host) (tracer_cls : TracerCls) :
  class_of (default_instance host tracer_cls) = tracer_cls.
Proof. by destruct tracer_cls. Qed.

(** The first call: the class is constructed and stored. *)
Lemma get_tracer_uninitialized (host : Host) (tracer_cls : TracerCls)
  (w : World) :
  _tracer w = None ->
  let t := fresh (dom (heap w)) in
  get_tracer host tracer_cls w
  = (Return t,
     set_tracer (Some t)
       (set_heap (<[t := default_instance host tracer_cls]> (heap w)) w)).
Proof.
  intros Hnone t. unfold get_tracer.
  unfold bind at 1. unfold read_tracer at 1. unfold bind at 1.
  unfold get_world at 1. unfold ret at 1. rewrite Hnone.
  unfold bind at 1. unfold bind at 1. rewrite construct_default.
  destruct (alloc_fresh (default_instance host tracer_cls) w) as [_ ->].
  fold t. unfold write_tracer, modify_world.
  unfold bind at 1. unfold read_tracer, bind, get_world, ret. simpl.
  unfold load, bind, get_world. simpl. rewrite lookup_insert_eq.
  unfold ret. rewrite class_of_default_instance.
  destruct (decide (tracer_cls ≠ tracer_cls)); [done|reflexivity].
Qed.

(** A later call: the stored object is answered or the call is refused, and
    the world stays as it is. *)
Lemma get_tracer_initialized (host : Host) (tracer_cls : TracerCls)
  (w : World) (t : loc) (obj : instance) :
  _tracer w = Some t ->
  heap w !! t = Some obj ->
  get_tracer host tracer_cls w = (registry_answer (class_of obj) t tracer_cls, w).
Proof.
  intros Hsome Hobj. unfold get_tracer, registry_answer.
  unfold bind at 1. unfold read_tracer at 1. unfold bind at 1.
  unfold get_world at 1. unfold ret at 1. rewrite Hsome.
  unfold bind at 1. unfold ret at 1.
  unfold bind at 1. unfold read_tracer. unfold bind at 1.
  unfold get_world, ret. rewrite Hsome.
  unfold bind. rewrite (load_some _ _ _ Hobj).
  destruct (decide (class_of obj ≠ tracer_cls)) as [Hne|Heq];
    destruct (decide (tracer_cls = class_of obj)) as [Heq'|Hne'];
    try reflexivity.
  - by subst.
  - exfalso. apply Hne'. symmetry. by apply dec_stable.
Qed.

Lemma get_tracers_initialized (host : Host) (requests : list TracerCls)
  (w : World) (t : loc) (obj : instance) :
  _tracer w = Some t ->
  heap w !! t = Some obj ->
  get_tracers host requests w
  = (Return (map (registry_answer (class_of obj) t) requests), w).
Proof.
  intros Hsome Hobj. induction requests as [|c rest IH]; [done|].
  simpl. unfold bind at 1. unfold attempt.
  rewrite (get_tracer_initialized host c w t obj Hsome Hobj).
  unfold bind at 1. rewrite IH. reflexivity.
Qed.

(** C9. On an uninitialized registry [get_tracer] constructs the requested
    class with its default configuration, as a new object, and stores it.
    From then on, in any world where the registry still holds that object:
    a call with the same class answers the stored object and a call with
    another class raises [TypeError], and neither constructs anything nor
    changes the world; so does every call of any sequence of later calls. *)
Theorem get_tracer_is_a_singleton (host : Host) (tracer_cls : TracerCls)
  (w : World) :
  _tracer w = None ->
  exists (t : loc) (w1 : World),
    get_tracer host tracer_cls w = (Return t, w1) /\
    heap w !! t = None /\
    heap w1 = <[t := default_instance host tracer_cls]> (heap w) /\
    _tracer w1 = Some t /\
    (forall (w2 : World) (obj : instance),
       _tracer w2 = Some t ->
       heap w2 !! t = Some obj ->
       class_of obj = tracer_cls ->
       get_tracer host tracer_cls w2 = (Return t, w2) /\
       forall other : TracerCls,
         other <> tracer_cls ->
         get_tracer host other w2
         = (Raise (TypeError "get_tracer called with a different cls"), w2)) /\
    (forall requests : list TracerCls,
       get_tracers host requests w1
       = (Return (map (registry_answer tracer_cls t) requests), w1)).
Proof.
  intros Hnone.
  pose proof (get_tracer_uninitialized host tracer_cls w Hnone) as Hfirst.
  destruct (alloc_fresh (default_instance host tracer_cls) w) as [Hfresh _].
  simpl in Hfirst, Hfresh.
  set (t := fresh (dom (heap w))) in *.
  eexists t, _. split; [exact Hfirst|].
  split; [exact Hfresh|]. split; [reflexivity|]. split; [reflexivity|].
  split.
  - intros w2 obj Hsome Hobj Hcls. split.
    + rewrite (get_tracer_initialized host _ w2 t obj Hsome Hobj).
      unfold registry_answer. rewrite Hcls.
      by destruct (decide (tracer_cls = tracer_cls)).
    + intros other Hother.
      rewrite (get_tracer_initialized host _ w2 t obj Hsome Hobj).
      unfold registry_answer. rewrite Hcls.
      by destruct (decide (other = tracer_cls)).
  - intros requests.
    rewrite (get_tracers_initialized host requests _ t
               (default_instance host tracer_cls)).
    + by rewrite class_of_default_instance.
    + reflexivity.
    + simpl. apply lookup_insert_eq.
Qed.

Lemma get_tracer_is_a_singleton_witness :
  exists (t : loc) (w1 : World),
    get_tracer cpu_host DummyTracer_cls initial_world = (Return t, w1) /\
    heap initial_world !! t = None /\
    heap w1 = <[t := default_instance cpu_host DummyTracer_cls]> (heap initial_world) /\
    _tracer w1 = Some t /\
    (forall (w2 : World) (obj : instance),
       _tracer w2 = Some t ->
       heap w2 !! t = Some obj ->
       class_of obj = DummyTracer_cls ->
       get_tracer cpu_host DummyTracer_cls w2 = (Return t, w2) /\
       forall other : TracerCls,
         other <> DummyTracer_cls ->
         get_tracer cpu_host other w2
         = (Raise (TypeError "get_tracer called with a different cls"), w2)) /\
    (forall requests : list TracerCls,
       get_tracers cpu_host requests w1
       = (Return (map (registry_answer DummyTracer_cls t) requests), w1)).
Proof.
  apply (get_tracer_is_a_singleton cpu_host DummyTracer_cls initial_world).
  reflexivity.
Defined.

(** C10. On an uninitialized registry [clear_tracer] does not fail: it
    constructs a default [ChromeTracer] (enabled, unbounded, empty buffer,
    counter zero) as a new object, stores it in the registry and clears it,
    which leaves the object as constructed. *)
Theorem clear_tracer_initializes_registry (host : Host) (w : World) :
  _tracer w = None ->
  exists (t : loc) (a : ChromeTracerAttrs),
    clear_tracer host w
    = (Return tt,
       set_tracer (Some t)
         (set_heap (<[t := ChromeTracerInstance a]> (heap w)) w)) /\
    heap w !! t = None /\
    a = ChromeTracer.__init__ host None true /\
    _enable a = true /\
    _max_event_count a = Unbounded /\
    _event_list a = [] /\
    _event_count a = 0.
Proof.
  intros Hnone.
  pose proof (get_tracer_uninitialized host ChromeTracer_cls w Hnone) as Hget.
  destruct (alloc_fresh (default_instance host ChromeTracer_cls) w)
    as [Hfresh _].
  simpl in Hget, Hfresh.
  set (t := fresh (dom (heap w))) in *.
  exists t, (ChromeTracer.__init__ host None true).
  split; [|done].
  unfold clear_tracer. unfold bind at 1. rewrite Hget.
  set (w1 := set_tracer _ _).
  assert (Hself : is_chrome w1 t (ChromeTracer.__init__ host None true)).
  { unfold is_chrome, w1. simpl. apply lookup_insert_eq. }
  unfold call_clear. unfold bind at 1.
  rewrite (method_clear_chrome _ _ _ Hself).
  rewrite (clear_chrome _ _ _ Hself).
  f_equal. unfold put_attrs, w1, set_heap, set_tracer; simpl.
  by rewrite insert_insert_eq.
Qed.

Lemma clear_tracer_initializes_registry_witness :
  exists (t : loc) (a : ChromeTracerAttrs),
    clear_tracer cpu_host initial_world
    = (Return tt,
       set_tracer (Some t)
         (set_heap (<[t := ChromeTracerInstance a]> (heap initial_world))
            initial_world)) /\
    heap initial_world !! t = None /\
    a = ChromeTracer.__init__ cpu_host None true /\
    _enable a = true /\
    _max_event_count a = Unbounded /\
    _event_list a = [] /\
    _event_count a = 0.
Proof.
  apply (clear_tracer_initializes_registry cpu_host initial_world).
  reflexivity.
Defined.

(** ** Checkpoints *)

Section Checkpoint.

Variable json : Json.

Lemma state_dict_chrome (w : World) (self : loc) (a : ChromeTracerAttrs) :
  is_chrome w self a ->
  ChromeTracer.state_dict json self w
  = (Return (<["_event_count" := PyInt (_event_count a)]>
             (<["_max_event_count" := max_count_value (_max_event_count a)]>
              (<["_event_list" := PyStr (dumps json (_event_list a))]>
               (<["_enable" := PyBool (_enable a)]> ∅)))), w).
Proof.
  intros Hself. unfold ChromeTracer.state_dict. cbv zeta.
  unfold bind. by rewrite !(getattr_chrome _ _ _ _ Hself).
Qed.

Lemma as_max_count_value (m : MaxCount) (w : World) :
  as_max_count (max_count_value m) w = (Return m, w).
Proof. by destruct m. Qed.

Lemma load_state_dict_chrome (w : World) (self : loc)
  (b : ChromeTracerAttrs) (enable : bool) (events : list Event)
  (max : MaxCount) (count : Z) (text : string) :
  is_chrome w self b ->
  loads json text = Return events ->
  ChromeTracer.load_state_dict json self
    (<["_event_count" := PyInt count]>
     (<["_max_event_count" := max_count_value max]>
      (<["_event_list" := PyStr text]>
       (<["_enable" := PyBool enable]> ∅)))) w
  = (Return tt,
     put_attrs self
       {| _enable := enable; _event_list := events;
          _max_event_count := max; _event_count := count;
          _is_cuda_available := _is_cuda_available b; _pid := _pid b |} w).
Proof.
  intros Hself Hloads. unfold ChromeTracer.load_state_dict, getitem.
  rewrite lookup_insert_eq.
  rewrite !(lookup_insert_ne _ "_event_count") by done.
  rewrite lookup_insert_eq.
  rewrite !(lookup_insert_ne _ "_max_event_count") by done.
  rewrite lookup_insert_eq.
  rewrite !(lookup_insert_ne _ "_event_list") by done.
  rewrite lookup_insert_eq.
  unfold bind at 1. unfold ret at 1.
  unfold bind at 1. unfold as_bool, ret at 1.
  unfold bind at 1. rewrite (setattr_chrome _ _ _ _ Hself).
  unfold bind at 1. unfold ret at 1.
  unfold bind at 1. unfold as_str, ret at 1.
  unfold bind at 1. unfold lift. rewrite Hloads.
  unfold bind at 1.
  rewrite (setattr_chrome _ _ _ _ (is_chrome_put_attrs _ _ _)).
  rewrite put_attrs_put_attrs.
  unfold bind at 1. unfold ret at 1.
  unfold bind at 1. rewrite as_max_count_value.
  unfold bind at 1.
  rewrite (setattr_chrome _ _ _ _ (is_chrome_put_attrs _ _ _)).
  rewrite put_attrs_put_attrs.
  unfold bind at 1. unfold ret at 1.
  unfold bind at 1. unfold as_int, ret at 1.
  rewrite (setattr_chrome _ _ _ _ (is_chrome_put_attrs _ _ _)).
  by rewrite put_attrs_put_attrs.
Qed.

End Checkpoint.

(** C3. [load_state_dict] on the result of [state_dict] reproduces the
    recorder, provided the event list is one that [json.loads] reads back
    from its [json.dumps] text: the state has the four keys of the checkpoint
    format, and the tracer that loads it, in any world, has the same enabled
    flag, event count, max event count and event list as the tracer that was
    saved (and keeps its own process id and device flag); loaded into the
    saved tracer itself, it changes nothing. *)
Theorem state_dict_round_trip (json : Json) (w w' : World) (self target : loc)
  (a b : ChromeTracerAttrs) :
  is_chrome w self a ->
  loads json (dumps json (_event_list a)) = Return (_event_list a) ->
  is_chrome w' target b ->
  exists (state : gmap string PyVal) (b' : ChromeTracerAttrs),
    ChromeTracer.state_dict json self w = (Return state, w) /\
    dom state
    = ({["_enable"; "_event_list"; "_max_event_count"; "_event_count"]}
         : gset string) /\
    state !! "_event_list" = Some (PyStr (dumps json (_event_list a))) /\
    ChromeTracer.load_state_dict json target state w'
    = (Return tt, put_attrs target b' w') /\
    _enable b' = _enable a /\
    _event_count b' = _event_count a /\
    _max_event_count b' = _max_event_count a /\
    _event_list b' = _event_list a /\
    _is_cuda_available b' = _is_cuda_available b /\
    _pid b' = _pid b /\
    ChromeTracer.load_state_dict json self state w = (Return tt, w).
Proof.
  intros Hself Hjson Htarget.
  eexists _, _. split; [by apply state_dict_chrome|].
  split; [by rewrite !dom_insert_L, dom_empty_L; set_solver|].
  split; [by rewrite lookup_insert_ne, lookup_insert_ne, lookup_insert_eq|].
  split; [by apply load_state_dict_chrome|].
  repeat (split; [reflexivity|]).
  rewrite (load_state_dict_chrome json w self a _ _ _ _ _ Hself Hjson).
  f_equal. rewrite attrs_eta. by apply put_attrs_same.
Qed.

Lemma state_dict_round_trip_witness :
  let a := two_events true in
  let b := ChromeTracer.__init__ cpu_host None false in
  let w := world_with a in
  let w' := world_with b in
  loads SimpleJson.json (dumps SimpleJson.json (_event_list a))
  = Return (_event_list a) /\
  exists (state : gmap string PyVal) (b' : ChromeTracerAttrs),
    ChromeTracer.state_dict SimpleJson.json 0%nat w = (Return state, w) /\
    dom state
    = ({["_enable"; "_event_list"; "_max_event_count"; "_event_count"]}
         : gset string) /\
    state !! "_event_list"
    = Some (PyStr (dumps SimpleJson.json (_event_list a))) /\
    ChromeTracer.load_state_dict SimpleJson.json 0%nat state w'
    = (Return tt, put_attrs 0%nat b' w') /\
    _enable b' = _enable a /\
    _event_count b' = _event_count a /\
    _max_event_count b' = _max_event_count a /\
    _event_list b' = _event_list a /\
    _is_cuda_available b' = _is_cuda_available b /\
    _pid b' = _pid b /\
    ChromeTracer.load_state_dict SimpleJson.json 0%nat state w = (Return tt, w).
Proof.
  intros a b w w'.
  assert (Hjson : loads SimpleJson.json (dumps SimpleJson.json (_event_list a))
                  = Return (_event_list a)) by (vm_compute; reflexivity).
  split; [exact Hjson|].
  apply (state_dict_round_trip SimpleJson.json w w' 0%nat 0%nat a b).
  - apply is_chrome_put_attrs.
  - exact Hjson.
  - apply is_chrome_put_attrs.
Defined.

(** ** Subsets of a dataset, one per replica *)

Lemma ceil_times_ge (N R : Z) : 0 < R -> N <= R * ((N + R - 1) / R).
Proof.
  intros HR.
  pose proof (Z.div_mod (N + R - 1) R ltac:(lia)).
  pose proof (Z.mod_pos_bound (N + R - 1) R HR). lia.
Qed.

Lemma ceil_times_le (N R : Z) : 0 < R -> R * ((N + R - 1) / R) <= N + R - 1.
Proof.
  intros HR.
  pose proof (Z.div_mod (N + R - 1) R ltac:(lia)).
  pose proof (Z.mod_pos_bound (N + R - 1) R HR). lia.
Qed.

(** The window of a replica lies inside [0 .. N]. *)
Lemma window_inside (N R r : Z) :
  0 <= N -> 0 <= r < R ->
  0 <= N * r / R /\ N * r / R + (N + R - 1) / R <= N.
Proof.
  intros HN [Hr HrR]. assert (HR : 0 < R) by lia.
  pose proof (Z.div_mod (N * r) R ltac:(lia)) as Hd.
  pose proof (Z.mod_pos_bound (N * r) R HR) as Hm.
  pose proof (ceil_times_le N R HR) as Hc.
  split; [apply Z.div_pos; nia|].
  assert (H : R * (N * r / R + (N + R - 1) / R) < R * (N + 1)) by nia.
  assert (N * r / R + (N + R - 1) / R < N + 1); [|lia].
  apply Z.mul_lt_mono_pos_l with R; lia.
Qed.

(** The window of a replica starts no later than the one before it ends. *)
Lemma window_overlap (N R r : Z) :
  0 <= N -> 0 < R -> 0 <= r ->
  N * (r + 1) / R <= N * r / R + (N + R - 1) / R.
Proof.
  intros HN HR Hr.
  pose proof (Z.div_mod (N * r) R ltac:(lia)) as Hd.
  pose proof (Z.mod_pos_bound (N * r) R HR) as Hm.
  pose proof (ceil_times_ge N R HR) as Hc.
  assert (H : N * (r + 1) / R < N * r / R + (N + R - 1) / R + 1); [|lia].
  apply Z.div_lt_upper_bound; [lia|]. nia.
Qed.

(** Every position below the start of window [k] lies in a window before. *)
Lemma windows_cover (N R : Z) (k : nat) :
  0 <= N -> 0 < R ->
  forall p : Z, 0 <= p < N * Z.of_nat k / R ->
  exists r : Z, 0 <= r < Z.of_nat k /\
    N * r / R <= p < N * r / R + (N + R - 1) / R.
Proof.
  intros HN HR. induction k as [|k IH]; intros p Hp.
  - rewrite Z.mul_0_r, Z.div_0_l in Hp by lia. lia.
  - destruct (Z.lt_ge_cases p (N * Z.of_nat k / R)) as [Hlt|Hge].
    + destruct (IH p ltac:(lia)) as (r & Hr & Hw). exists r. lia.
    + exists (Z.of_nat k). split; [lia|].
      pose proof (window_overlap N R (Z.of_nat k) HN HR ltac:(lia)) as Ho.
      replace (Z.of_nat (S k)) with (Z.of_nat k + 1) in Hp by lia. lia.
Qed.

Lemma py_slice_window {A : Type} (l : list A) (b n : Z) :
  0 <= b -> 0 <= n -> b + n <= Z.of_nat (length l) ->
  py_slice l b (b + n) = take (Z.to_nat n) (drop (Z.to_nat b) l).
Proof.
  intros Hb Hn Hlen. unfold py_slice, slice_index.
  destruct (Z.ltb_spec b 0); [lia|].
  destruct (Z.ltb_spec (b + n) 0); [lia|].
  do 2 f_equal; lia.
Qed.

Lemma elem_of_window {A : Type} (l : list A) (b n : nat) (x : A) :
  x ∈ take n (drop b l) <->
  exists p : nat, (b <= p < b + n)%nat /\ l !! p = Some x.
Proof.
  rewrite list_elem_of_lookup. split.
  - intros [i Hi]. apply lookup_take_Some in Hi as [Hi Hlt].
    rewrite lookup_drop in Hi. exists (b + i)%nat. split; [lia|done].
  - intros (p & Hp & Hx). exists (p - b)%nat.
    apply lookup_take_Some. split; [|lia].
    rewrite lookup_drop. by replace (b + (p - b))%nat with p by lia.
Qed.

Lemma length_window {A : Type} (l : list A) (b n : nat) :
  (b + n <= length l)%nat -> length (take n (drop b l)) = n.
Proof. intros H. rewrite length_take, length_drop. lia. Qed.

(** With every argument given and replicas to divide by, the function returns
    the window of the replica in the list of indices, shuffled or not. *)
Lemma create_distributed_subset_indices_run (h : DistHost) (N R r seed : Z)
  (shuffle : bool) (sh : list Z -> list Z) :
  R <> 0 ->
  random_state h seed = Return sh ->
  create_distributed_subset_indices h N (Some R) (Some r) shuffle (Some seed)
  = Return (py_slice (if shuffle then sh (seqZ 0 N) else seqZ 0 N)
              (N * r / R) (N * r / R + (N + R - 1) / R)).
Proof.
  intros HR Hrng. unfold create_distributed_subset_indices, floordiv.
  simpl. rewrite Hrng. simpl.
  destruct (Z.eqb_spec R 0); [done|]. reflexivity.
Qed.

Lemma shuffled_indices (N : Z) (shuffle : bool) (sh : list Z -> list Z) :
  (forall l : list Z, sh l ≡ₚ l) ->
  (if shuffle then sh (seqZ 0 N) else seqZ 0 N) ≡ₚ seqZ 0 N.
Proof. intros Hsh. destruct shuffle; [apply Hsh|done]. Qed.

Lemma single_process_shuffles (seed : Z) : shuffles single_process seed.
Proof. exists reverse. split; [done|]. apply reverse_Permutation. Qed.

(** The indices that every replica draws from: a permutation of
    [0 .. N - 1]. *)
Lemma subset_is_window (h : DistHost) (N R r seed : Z) (shuffle : bool) :
  0 <= N -> 0 <= r < R -> shuffles h seed ->
  exists indices : list Z,
    indices ≡ₚ seqZ 0 N /\
    create_distributed_subset_indices h N (Some R) (Some r) shuffle (Some seed)
    = Return (take (Z.to_nat ((N + R - 1) / R))
                (drop (Z.to_nat (N * r / R)) indices)).
Proof.
  intros HN Hr (sh & Hrng & Hsh).
  exists (if shuffle then sh (seqZ 0 N) else seqZ 0 N).
  split; [by apply shuffled_indices|].
  rewrite (create_distributed_subset_indices_run h N R r seed shuffle sh)
    by (done || lia).
  destruct (window_inside N R r HN Hr) as [Hb He].
  f_equal. apply py_slice_window; [done| |].
  - apply Z.div_pos; lia.
  - rewrite (Permutation_length (shuffled_indices N shuffle sh Hsh)).
    rewrite length_seqZ. lia.
Qed.

(** Every replica gets the same number of indices, [N] over [R] rounded
    up. *)
Theorem subset_indices_equal_size (h : DistHost) (N R r seed : Z)
  (shuffle : bool) :
  0 <= N -> 0 <= r < R -> shuffles h seed ->
  exists l : list Z,
    create_distributed_subset_indices h N (Some R) (Some r) shuffle (Some seed)
    = Return l /\
    Z.of_nat (length l) = (N + R - 1) / R.
Proof.
  intros HN Hr Hsh.
  destruct (subset_is_window h N R r seed shuffle HN Hr Hsh)
    as (indices & Hperm & Hrun).
  eexists. split; [exact Hrun|].
  destruct (window_inside N R r HN Hr) as [Hb He].
  assert (0 <= (N + R - 1) / R) by (apply Z.div_pos; lia).
  rewrite length_window; [lia|].
  rewrite (Permutation_length Hperm), length_seqZ. lia.
Qed.

Lemma subset_indices_equal_size_witness :
  exists l : list Z,
    create_distributed_subset_indices single_process 10 (Some 3) (Some 2)
      true (Some 7)
    = Return l /\
    Z.of_nat (length l) = (10 + 3 - 1) / 3.
Proof.
  apply (subset_indices_equal_size single_process 10 3 2 7 true).
  - lia.
  - lia.
  - apply single_process_shuffles.
Defined.

(** The indices of a replica are indices of the dataset, none of them
    twice. *)
Theorem subset_indices_valid_and_distinct (h : DistHost) (N R r seed : Z)
  (shuffle : bool) :
  0 <= N -> 0 <= r < R -> shuffles h seed ->
  exists l : list Z,
    create_distributed_subset_indices h N (Some R) (Some r) shuffle (Some seed)
    = Return l /\
    NoDup l /\
    forall i : Z, i ∈ l -> 0 <= i < N.
Proof.
  intros HN Hr Hsh.
  destruct (subset_is_window h N R r seed shuffle HN Hr Hsh)
    as (indices & Hperm & Hrun).
  eexists. split; [exact Hrun|]. split.
  - apply (sublist_NoDup _ indices).
    + rewrite Hperm. apply NoDup_seqZ.
    + trans (drop (Z.to_nat (N * r / R)) indices);
        [apply sublist_take|apply sublist_drop].
  - intros i Hi. apply elem_of_window in Hi as (p & _ & Hp).
    apply list_elem_of_lookup_2 in Hp. rewrite Hperm in Hp.
    apply elem_of_seqZ in Hp. lia.
Qed.

Lemma subset_indices_valid_and_distinct_witness :
  exists l : list Z,
    create_distributed_subset_indices single_process 10 (Some 3) (Some 1)
      true (Some 7)
    = Return l /\
    NoDup l /\
    forall i : Z, i ∈ l -> 0 <= i < 10.
Proof.
  apply (subset_indices_valid_and_distinct single_process 10 3 1 7 true).
  - lia.
  - lia.
  - apply single_process_shuffles.
Defined.

(** Together the replicas cover the dataset: every index is in the subset of
    some replica. *)
Theorem subset_indices_cover_dataset (h : DistHost) (N R seed i : Z)
  (shuffle : bool) :
  0 < R -> 0 <= i < N -> shuffles h seed ->
  exists (r : Z) (l : list Z),
    0 <= r < R /\
    create_distributed_subset_indices h N (Some R) (Some r) shuffle (Some seed)
    = Return l /\
    i ∈ l.
Proof.
  intros HR Hi Hsh. assert (HN : 0 <= N) by lia.
  destruct Hsh as (sh & Hrng & Hperm).
  set (indices := if shuffle then sh (seqZ 0 N) else seqZ 0 N).
  assert (Hind : indices ≡ₚ seqZ 0 N) by (by apply shuffled_indices).
  assert (Hin : i ∈ indices) by (rewrite Hind; apply elem_of_seqZ; lia).
  apply list_elem_of_lookup in Hin as [p Hp].
  pose proof (lookup_lt_Some _ _ _ Hp) as Hlt.
  rewrite (Permutation_length Hind), length_seqZ in Hlt.
  destruct (windows_cover N R (Z.to_nat R) HN HR (Z.of_nat p)) as (r & Hr & Hw).
  { rewrite Z2Nat.id by lia. rewrite Z.div_mul by lia. lia. }
  rewrite Z2Nat.id in Hr by lia.
  destruct (subset_is_window h N R r seed shuffle HN Hr
              (ex_intro _ sh (conj Hrng Hperm)))
    as (indices' & _ & Hrun).
  exists r. eexists. split; [done|].
  rewrite (create_distributed_subset_indices_run h N R r seed shuffle sh)
    by (done || lia).
  destruct (window_inside N R r HN Hr) as [Hb He].
  split; [reflexivity|].
  rewrite py_slice_window; [|done| |].
  - apply elem_of_window. exists p. split; [|exact Hp]. lia.
  - apply Z.div_pos; lia.
  - fold indices. rewrite (Permutation_length Hind), length_seqZ. lia.
Qed.

Lemma subset_indices_cover_dataset_witness :
  exists (r : Z) (l : list Z),
    0 <= r < 5 /\
    create_distributed_subset_indices single_process 7 (Some 5) (Some r)
      true (Some 7)
    = Return l /\
    4 ∈ l.
Proof.
  apply (subset_indices_cover_dataset single_process 7 5 7 4 true).
  - lia.
  - lia.
  - apply single_process_shuffles.
Defined.

(** When the replicas divide the dataset evenly, no index is in the subsets
    of two replicas: with the cover above, the subsets partition the
    dataset. *)
Theorem subset_indices_disjoint_when_divisible (h : DistHost)
  (N R r1 r2 seed : Z) (shuffle : bool) (l1 l2 : list Z) :
  0 <= N -> N mod R = 0 ->
  0 <= r1 < R -> 0 <= r2 < R -> r1 <> r2 ->
  shuffles h seed ->
  create_distributed_subset_indices h N (Some R) (Some r1) shuffle (Some seed)
  = Return l1 ->
  create_distributed_subset_indices h N (Some R) (Some r2) shuffle (Some seed)
  = Return l2 ->
  forall i : Z, i ∈ l1 -> i ∉ l2.
Proof.
  intros HN Hmod Hr1 Hr2 Hne (sh & Hrng & Hperm) Hl1 Hl2 i Hi1 Hi2.
  assert (HR : 0 < R) by lia.
  set (indices := if shuffle then sh (seqZ 0 N) else seqZ 0 N) in *.
  assert (Hind : indices ≡ₚ seqZ 0 N) by (by apply shuffled_indices).
  assert (Hlen : Z.of_nat (length indices) = N).
  { rewrite (Permutation_length Hind), length_seqZ. lia. }
  assert (Hnd : NoDup indices) by (rewrite Hind; apply NoDup_seqZ).
  set (m := N / R).
  assert (HNm : N = R * m) by (subst m; apply Z.div_exact; lia).
  assert (Hm : 0 <= m) by (subst m; apply Z.div_pos; lia).
  assert (Hn : (N + R - 1) / R = m).
  { symmetry. apply Z.div_unique with (R - 1); lia. }
  assert (Hb : forall r, N * r / R = m * r).
  { intros r. rewrite HNm. replace (R * m * r) with (m * r * R) by lia.
    apply Z.div_mul. lia. }
  assert (Hwin : forall r l, 0 <= r < R ->
    create_distributed_subset_indices h N (Some R) (Some r) shuffle (Some seed)
    = Return l ->
    i ∈ l -> exists p : nat,
      m * r <= Z.of_nat p < m * r + m /\ indices !! p = Some i).
  { intros r l Hr Hl Hi.
    rewrite (create_distributed_subset_indices_run h N R r seed shuffle sh)
      in Hl by (done || lia).
    fold indices in Hl. injection Hl as <-.
    rewrite Hn, Hb in Hi.
    rewrite py_slice_window in Hi by nia.
    apply elem_of_window in Hi as (p & Hp & Hlook).
    exists p. split; [lia|done]. }
  destruct (Hwin r1 l1 Hr1 Hl1 Hi1) as (p1 & Hp1 & Hlook1).
  destruct (Hwin r2 l2 Hr2 Hl2 Hi2) as (p2 & Hp2 & Hlook2).
  pose proof (NoDup_lookup _ _ _ _ Hnd Hlook1 Hlook2) as ->.
  nia.
Qed.

Lemma subset_indices_disjoint_when_divisible_witness :
  create_distributed_subset_indices single_process 6 (Some 2) (Some 0) true
    (Some 7)
  = Return [5; 4; 3] /\
  create_distributed_subset_indices single_process 6 (Some 2) (Some 1) true
    (Some 7)
  = Return [2; 1; 0] /\
  4 ∈ [5; 4; 3] /\
  4 ∉ [2; 1; 0].
Proof.
  assert (Hin : 4 ∈ [5; 4; 3]) by (apply list_elem_of_In; simpl; tauto).
  split; [reflexivity|]. split; [reflexivity|]. split; [exact Hin|].
  apply (subset_indices_disjoint_when_divisible single_process 6 2 0 1 7 true
           [5; 4; 3] [2; 1; 0]).
  - lia.
  - reflexivity.
  - lia.
  - lia.
  - lia.
  - apply single_process_shuffles.
  - reflexivity.
  - reflexivity.
  - exact Hin.
Defined.

Lemma drop_take_seqZ (N b n : Z) :
  0 <= b -> 0 <= n -> b + n <= N ->
  take (Z.to_nat n) (drop (Z.to_nat b) (seqZ 0 N)) = seqZ b n.
Proof.
  intros Hb Hn HN.
  replace N with (b + (n + (N - b - n))) by lia.
  rewrite seqZ_app by lia. rewrite seqZ_app by lia.
  rewrite drop_app_length' by (rewrite length_seqZ; lia).
  rewrite take_app_length' by (rewrite length_seqZ; lia).
  f_equal.
Qed.

(** Without shuffling, the subset of a replica is a run of consecutive
    indices. *)
Theorem subset_indices_without_shuffle (h : DistHost) (N R r seed : Z)
  (sh : list Z -> list Z) :
  0 <= N -> 0 <= r < R -> random_state h seed = Return sh ->
  create_distributed_subset_indices h N (Some R) (Some r) false (Some seed)
  = Return (seqZ (N * r / R) ((N + R - 1) / R)).
Proof.
  intros HN Hr Hrng.
  rewrite (create_distributed_subset_indices_run h N R r seed false sh)
    by (done || lia).
  destruct (window_inside N R r HN Hr) as [Hb He].
  assert (0 <= (N + R - 1) / R) by (apply Z.div_pos; lia).
  f_equal. rewrite py_slice_window by (rewrite ?length_seqZ; lia).
  by apply drop_take_seqZ.
Qed.

Lemma subset_indices_without_shuffle_witness :
  create_distributed_subset_indices single_process 10 (Some 3) (Some 1) false
    (Some 7)
  = Return (seqZ (10 * 1 / 3) ((10 + 3 - 1) / 3)).
Proof.
  apply (subset_indices_without_shuffle single_process 10 3 1 7 reverse).
  - lia.
  - lia.
  - reflexivity.
Defined.

(** What the function raises: the exception of a random state that refuses
    the seed, whether the indices are to be shuffled or not, and
    [ZeroDivisionError] for zero replicas. *)
Theorem subset_indices_errors (h : DistHost) (N r seed : Z) (shuffle : bool) :
  (forall (e : exn) (R : Z),
     random_state h seed = Raise e ->
     create_distributed_subset_indices h N (Some R) (Some r) shuffle
       (Some seed)
     = Raise e) /\
  (forall sh : list Z -> list Z,
     random_state h seed = Return sh ->
     create_distributed_subset_indices h N (Some 0) (Some r) shuffle
       (Some seed)
     = Raise (ZeroDivisionError "integer division or modulo by zero")).
Proof.
  split.
  - intros e R Hrng. unfold create_distributed_subset_indices. simpl.
    by rewrite Hrng.
  - intros sh Hrng. unfold create_distributed_subset_indices. simpl.
    by rewrite Hrng.
Qed.

(** A rank at or beyond the number of replicas is not refused: its subset is
    empty. *)
Theorem subset_indices_rank_out_of_range (h : DistHost) (N R r seed : Z)
  (shuffle : bool) :
  0 <= N -> 0 < R -> R <= r -> shuffles h seed ->
  create_distributed_subset_indices h N (Some R) (Some r) shuffle (Some seed)
  = Return [].
Proof.
  intros HN HR Hr (sh & Hrng & Hperm).
  rewrite (create_distributed_subset_indices_run h N R r seed shuffle sh)
    by (done || lia).
  f_equal. unfold py_slice.
  rewrite (Permutation_length (shuffled_indices N shuffle sh Hperm)).
  rewrite length_seqZ, Z2Nat.id by lia.
  assert (Hb : N <= N * r / R).
  { apply Z.div_le_lower_bound; [lia|nia]. }
  assert (Hn : 0 <= (N + R - 1) / R) by (apply Z.div_pos; lia).
  unfold slice_index.
  destruct (Z.ltb_spec (N * r / R) 0); [lia|].
  destruct (Z.ltb_spec (N * r / R + (N + R - 1) / R) 0); [lia|].
  rewrite !Z.min_r by lia. by rewrite Z.sub_diag.
Qed.

Lemma subset_indices_rank_out_of_range_witness :
  create_distributed_subset_indices single_process 10 (Some 3) (Some 3) true
    (Some 7)
  = Return [].
Proof.
  apply (subset_indices_rank_out_of_range single_process 10 3 3 7 true).
  - lia.
  - lia.
  - lia.
  - apply single_process_shuffles.
Defined.

(** ** Spans that record nothing *)

Lemma add_event_finally_skip (host : Host) (w : World) (self : loc)
  (name : string) (begin_ns : Z) (a : ChromeTracerAttrs) :
  is_chrome w self a ->
  records a = false ->
  ChromeTracer.add_event_finally host self name begin_ns w = (Return tt, w).
Proof.
  intros Hself Hrec. unfold ChromeTracer.add_event_finally.
  unfold bind at 1. rewrite (getattr_chrome _ _ _ _ Hself).
  unfold records in Hrec.
  destruct (_enable a); simpl in Hrec.
  - unfold bind at 1. unfold bind at 1.
    rewrite (getattr_chrome _ _ _ _ Hself).
    unfold bind at 1. rewrite (getattr_chrome _ _ _ _ Hself).
    unfold ret at 1. by rewrite Hrec.
  - reflexivity.
Qed.

(** A span of a tracer that is disabled or at its cap when the block ends is
    the block after one reading of the clock: same outcome, same world; no
    device barrier, no second reading, no write to the tracer.  This needs
    nothing of the host. *)
Theorem idle_span_is_its_block (host : Host) (w w1 : World) (self : loc)
  (name : string) (body : M unit) (a a1 : ChromeTracerAttrs)
  (r : outcome unit) :
  is_chrome w self a ->
  body (block_start w) = (r, w1) ->
  is_chrome w1 self a1 ->
  _enable a1 = false \/ lt_max (_event_count a1) (_max_event_count a1) = false ->
  span host self name body w = (r, w1).
Proof.
  intros Hself Hbody Hself1 Hidle. unfold block_start in Hbody.
  assert (Hrec : records a1 = false).
  { unfold records. destruct Hidle as [-> | ->]; [done|].
    by destruct (_enable a1). }
  unfold span, with_, call_add_event.
  unfold bind at 1. unfold bind at 1.
  rewrite (method_add_event_chrome _ _ _ _ Hself).
  unfold ChromeTracer.add_event, perf_counter_ns.
  unfold bind at 1 2 3. unfold get_world, modify_world, ret.
  unfold bind at 1. unfold attempt. rewrite Hbody.
  destruct r as [[]|e]; unfold try_finally, yield_, ret, raise;
    by rewrite (add_event_finally_skip host _ _ _ _ _ Hself1 Hrec).
Qed.

Lemma idle_span_is_its_block_witness :
  let w := world_with (two_events false) in
  let e := UserException "ValueError" "bad batch" in
  span failing_gpu_host 0%nat "train" (raise e) w = (Raise e, block_start w).
Proof.
  intros w e.
  apply (idle_span_is_its_block failing_gpu_host w (block_start w) 0%nat
           "train" (raise e) (two_events false) (two_events false) (Raise e)).
  - apply is_chrome_put_attrs.
  - reflexivity.
  - apply is_chrome_put_attrs.
  - left. reflexivity.
Defined.

(** ** What a recording span touches *)

(** A span that records calls the device barrier once if the tracer found an
    accelerator when it was constructed and not at all otherwise, reads the
    clock once more when the block has ended, and leaves the registry, the
    writer log and every other object as the block left them. *)
Theorem recording_span_frame (host : Host) (w w1 : World) (self : loc)
  (name : string) (body : M unit) (a a1 : ChromeTracerAttrs)
  (r : outcome unit) :
  clock_in_range host ->
  barrier_returns host ->
  is_chrome w self a ->
  body (block_start w) = (r, w1) ->
  is_chrome w1 self a1 ->
  _enable a1 = true ->
  lt_max (_event_count a1) (_max_event_count a1) = true ->
  exists w2 : World,
    span host self name body w = (r, w2) /\
    synchronize_calls w2
    = (if _is_cuda_available a1
       then S (synchronize_calls w1) else synchronize_calls w1) /\
    clock_reads w2 = S (clock_reads w1) /\
    _tracer w2 = _tracer w1 /\
    written w2 = written w1 /\
    forall l : loc, l <> self -> heap w2 !! l = heap w1 !! l.
Proof.
  intros Hrange Hbarrier Hself Hbody Hself1 Hen Hlt.
  rewrite (span_chrome host Hrange Hbarrier _ _ _ name _ _ _ _
             Hself Hbody Hself1).
  unfold span_end, records. rewrite Hen, Hlt. simpl andb. cbv iota.
  eexists. split; [reflexivity|].
  unfold synchronized. destruct (_is_cuda_available a1); simpl;
    repeat split; try done; intros l Hl; by rewrite lookup_insert_ne.
Qed.

Lemma recording_span_frame_witness :
  let a := ChromeTracer.__init__ gpu_host None true in
  let w := world_with a in
  exists w2 : World,
    span gpu_host 0%nat "step" (ret tt) w = (Return tt, w2) /\
    synchronize_calls w2 = S (synchronize_calls (block_start w)) /\
    clock_reads w2 = S (clock_reads (block_start w)) /\
    _tracer w2 = _tracer (block_start w) /\
    written w2 = written (block_start w) /\
    forall l : loc, l <> 0%nat -> heap w2 !! l = heap (block_start w) !! l.
Proof.
  intros a w.
  apply (recording_span_frame gpu_host w (block_start w) 0%nat "step"
           (ret tt) a a (Return tt)).
  - intros i. simpl. change (2 ^ 63) with 9223372036854775808. lia.
  - intros i. reflexivity.
  - apply is_chrome_put_attrs.
  - reflexivity.
  - apply is_chrome_put_attrs.
  - reflexivity.
  - reflexivity.
Defined.

Lemma span_barrier_failure_witness :
  let a := ChromeTracer.__init__ failing_gpu_host None true in
  let w := world_with a in
  span failing_gpu_host 0%nat "step" (ret tt) w
  = (Raise (UserException "RuntimeError" "CUDA error"),
     set_synchronize_calls (S (synchronize_calls (block_start w)))
       (block_start w)).
Proof.
  intros a w.
  apply (span_barrier_failure failing_gpu_host w (block_start w) 0%nat
           "step" (ret tt) a a (Return tt)).
  - apply is_chrome_put_attrs.
  - reflexivity.
  - apply is_chrome_put_attrs.
  - reflexivity.
  - reflexivity.
  - reflexivity.
Defined.

(** ** The counter decides *)







(** ** [clear], [enable] and spans *)







(** ** Loading an incomplete or damaged checkpoint *)

(** [load_state_dict] assigns the attributes one by one and is not atomic.  A
    dictionary without the key [_enable] raises [KeyError] and leaves the
    tracer as it was; without [_event_list] the tracer has taken [_enable]
    over when [KeyError] is raised; without [_max_event_count] it has also
    taken the decoded event list over; without [_event_count] everything but
    the counter. *)
Theorem load_state_dict_missing_key (json : Json) (w : World) (self : loc)
  (a : ChromeTracerAttrs) (to_load : gmap string PyVal) :
  is_chrome w self a ->
  (to_load !! "_enable" = None ->
   ChromeTracer.load_state_dict json self to_load w
   = (Raise (KeyError "_enable"), w)) /\
  (forall enable : bool,
     to_load !! "_enable" = Some (PyBool enable) ->
     to_load !! "_event_list" = None ->
     ChromeTracer.load_state_dict json self to_load w
     = (Raise (KeyError "_event_list"),
        put_attrs self (set_enable enable a) w)) /\
  (forall (enable : bool) (text : string) (events : list Event),
     to_load !! "_enable" = Some (PyBool enable) ->
     to_load !! "_event_list" = Some (PyStr text) ->
     loads json text = Return events ->
     to_load !! "_max_event_count" = None ->
     ChromeTracer.load_state_dict json self to_load w
     = (Raise (KeyError "_max_event_count"),
        put_attrs self (set_event_list events (set_enable enable a)) w)) /\
  (forall (enable : bool) (text : string) (events : list Event)
          (max : MaxCount),
     to_load !! "_enable" = Some (PyBool enable) ->
     to_load !! "_event_list" = Some (PyStr text) ->
     loads json text = Return events ->
     to_load !! "_max_event_count" = Some (max_count_value max) ->
     to_load !! "_event_count" = None ->
     ChromeTracer.load_state_dict json self to_load w
     = (Raise (KeyError "_event_count"),
        put_attrs self
          (set_max_event_count max
             (set_event_list events (set_enable enable a))) w)).
Proof.
  intros Hself. repeat split.
  - intros H1. unfold ChromeTracer.load_state_dict, getitem.
    rewrite H1. reflexivity.
  - intros enable H1 H2. unfold ChromeTracer.load_state_dict, getitem.
    rewrite H1, H2.
    unfold bind at 1. unfold ret at 1.
    unfold bind at 1. unfold as_bool, ret at 1.
    unfold bind at 1. rewrite (setattr_chrome _ _ _ _ Hself).
    reflexivity.
  - intros enable text events H1 H2 Hloads H3.
    unfold ChromeTracer.load_state_dict, getitem.
    rewrite H1, H2, H3.
    unfold bind at 1. unfold ret at 1.
    unfold bind at 1. unfold as_bool, ret at 1.
    unfold bind at 1. rewrite (setattr_chrome _ _ _ _ Hself).
    unfold bind at 1. unfold ret at 1.
    unfold bind at 1. unfold as_str, ret at 1.
    unfold bind at 1. unfold lift. rewrite Hloads.
    unfold bind at 1.
    rewrite (setattr_chrome _ _ _ _ (is_chrome_put_attrs _ _ _)).
    rewrite put_attrs_put_attrs.
    reflexivity.
  - intros enable text events max H1 H2 Hloads H3 H4.
    unfold ChromeTracer.load_state_dict, getitem.
    rewrite H1, H2, H3, H4.
    unfold bind at 1. unfold ret at 1.
    unfold bind at 1. unfold as_bool, ret at 1.
    unfold bind at 1. rewrite (setattr_chrome _ _ _ _ Hself).
    unfold bind at 1. unfold ret at 1.
    unfold bind at 1. unfold as_str, ret at 1.
    unfold bind at 1. unfold lift. rewrite Hloads.
    unfold bind at 1.
    rewrite (setattr_chrome _ _ _ _ (is_chrome_put_attrs _ _ _)).
    rewrite put_attrs_put_attrs.
    unfold bind at 1. unfold ret at 1.
    unfold bind at 1. rewrite as_max_count_value.
    unfold bind at 1.
    rewrite (setattr_chrome _ _ _ _ (is_chrome_put_attrs _ _ _)).
    rewrite put_attrs_put_attrs.
    reflexivity.
Qed.

Lemma load_state_dict_missing_key_witness :
  let a := two_events true in
  let to_load : gmap string PyVal :=
    <["_event_list" := PyStr "[]"]> (<["_enable" := PyBool false]> ∅) in
  ChromeTracer.load_state_dict SimpleJson.json 0%nat to_load (world_with a)
  = (Raise (KeyError "_max_event_count"),
     put_attrs 0%nat (set_event_list [] (set_enable false a)) (world_with a)).
Proof.
  intros a to_load.
  destruct (load_state_dict_missing_key SimpleJson.json (world_with a) 0%nat
              a to_load (is_chrome_put_attrs _ _ _)) as (_ & _ & H & _).
  apply (H false "[]" []); reflexivity.
Defined.

(** A checkpoint whose event list does not decode: the exception of
    [json.loads] leaves [load_state_dict], and the tracer has taken over
    [_enable] of the checkpoint and nothing else. *)
Theorem load_state_dict_decode_failure (json : Json) (w : World) (self : loc)
  (a : ChromeTracerAttrs) (to_load : gmap string PyVal) (enable : bool)
  (text : string) (e : exn) :
  is_chrome w self a ->
  to_load !! "_enable" = Some (PyBool enable) ->
  to_load !! "_event_list" = Some (PyStr text) ->
  loads json text = Raise e ->
  ChromeTracer.load_state_dict json self to_load w
  = (Raise e, put_attrs self (set_enable enable a) w).
Proof.
  intros Hself H1 H2 Hloads.
  unfold ChromeTracer.load_state_dict, getitem.
  rewrite H1, H2.
  unfold bind at 1. unfold ret at 1.
  unfold bind at 1. unfold as_bool, ret at 1.
  unfold bind at 1. rewrite (setattr_chrome _ _ _ _ Hself).
  unfold bind at 1. unfold ret at 1.
  unfold bind at 1. unfold as_str, ret at 1.
  unfold bind at 1. unfold lift. rewrite Hloads.
  reflexivity.
Qed.

Lemma load_state_dict_decode_failure_witness :
  let a := two_events true in
  let to_load : gmap string PyVal :=
    <["_event_count" := PyInt 0]>
      (<["_max_event_count" := PyInt 9]>
         (<["_event_list" := PyStr "oops"]>
            (<["_enable" := PyBool false]> ∅))) in
  ChromeTracer.load_state_dict SimpleJson.json 0%nat to_load (world_with a)
  = (Raise JSONDecodeError, put_attrs 0%nat (set_enable false a) (world_with a)).
Proof.
  intros a to_load.
  apply (load_state_dict_decode_failure SimpleJson.json (world_with a) 0%nat
           a to_load false "oops" JSONDecodeError).
  - apply is_chrome_put_attrs.
  - reflexivity.
  - reflexivity.
  - reflexivity.
Defined.

(** ** The registry once it is set *)

Lemma clear_tracer_chrome (host : Host) (w : World) (t : loc)
  (a : ChromeTracerAttrs) :
  _tracer w = Some t ->
  is_chrome w t a ->
  clear_tracer host w = (Return tt, put_attrs t (cleared a) w).
Proof.
  intros Hsome Hself. unfold clear_tracer. unfold bind at 1.
  rewrite (get_tracer_initialized host _ w t _ Hsome Hself).
  unfold registry_answer. simpl.
  unfold call_clear. unfold bind at 1.
  rewrite (method_clear_chrome _ _ _ Hself). by apply clear_chrome.
Qed.

Lemma clear_tracer_other_class (host : Host) (w : World) (t : loc)
  (obj : instance) :
  _tracer w = Some t ->
  heap w !! t = Some obj ->
  class_of obj <> ChromeTracer_cls ->
  clear_tracer host w
  = (Raise (TypeError "get_tracer called with a different cls"), w).
Proof.
  intros Hsome Hobj Hcls. unfold clear_tracer. unfold bind at 1.
  rewrite (get_tracer_initialized host _ w t obj Hsome Hobj).
  unfold registry_answer.
  destruct (decide (ChromeTracer_cls = class_of obj)) as [Heq|_]; [|done].
  by destruct Hcls.
Qed.

(** [clear_tracer] on a registry that is set.  If it holds a [ChromeTracer],
    that tracer is cleared where it is: the buffer is empty and the counter
    zero afterwards, the enabled flag and the cap stay, and no object is
    made.  If it holds an object of another class, as after
    [get_tracer(DummyTracer)], the call raises [TypeError] and changes
    nothing. *)
Theorem clear_tracer_on_set_registry (host : Host) (w : World) (t : loc)
  (obj : instance) :
  _tracer w = Some t ->
  heap w !! t = Some obj ->
  (forall a : ChromeTracerAttrs,
     obj = ChromeTracerInstance a ->
     exists a' : ChromeTracerAttrs,
       clear_tracer host w = (Return tt, put_attrs t a' w) /\
       _event_list a' = [] /\ _event_count a' = 0 /\
       _enable a' = _enable a /\
       _max_event_count a' = _max_event_count a /\
       dom (heap (put_attrs t a' w)) = dom (heap w)) /\
  (class_of obj <> ChromeTracer_cls ->
   clear_tracer host w
   = (Raise (TypeError "get_tracer called with a different cls"), w)).
Proof.
  intros Hsome Hobj. split.
  - intros a ->. exists (cleared a).
    split; [by apply clear_tracer_chrome|]. repeat split.
    unfold put_attrs; simpl. rewrite dom_insert_L.
    apply subseteq_union_1_L, singleton_subseteq_l.
    by apply (elem_of_dom_2 _ _ _ Hobj).
  - intros Hcls. by apply (clear_tracer_other_class host w t obj).
Qed.

Lemma clear_tracer_on_set_registry_witness :
  (exists a' : ChromeTracerAttrs,
     clear_tracer cpu_host (registry_with (two_events true))
     = (Return tt, put_attrs 0%nat a' (registry_with (two_events true))) /\
     _event_list a' = [] /\ _event_count a' = 0 /\
     _enable a' = true /\
     _max_event_count a' = Bounded 5 /\
     dom (heap (put_attrs 0%nat a' (registry_with (two_events true))))
     = dom (heap (registry_with (two_events true)))) /\
  clear_tracer cpu_host dummy_world
  = (Raise (TypeError "get_tracer called with a different cls"), dummy_world).
Proof.
  split.
  - apply (proj1 (clear_tracer_on_set_registry cpu_host
                    (registry_with (two_events true)) 0%nat
                    (ChromeTracerInstance (two_events true))
                    eq_refl eq_refl) (two_events true)).
    reflexivity.
  - apply (proj2 (clear_tracer_on_set_registry cpu_host dummy_world 0%nat
                    DummyTracerInstance eq_refl eq_refl)).
    discriminate.
Defined.

Lemma registry_call_set (host : Host) (c : RegistryCall) (w : World)
  (t : loc) (obj : instance) :
  _tracer w = Some t ->
  heap w !! t = Some obj ->
  exists w' : World,
    registry_call host c w = (registry_result (class_of obj) c, w') /\
    _tracer w' = Some t /\
    (heap w' = heap w \/ heap w' = <[t := cleared_instance obj]> (heap w)) /\
    clock_reads w' = clock_reads w /\
    written w' = written w.
Proof.
  intros Hsome Hobj. destruct c as [tracer_cls|]; simpl.
  - exists w. unfold bind.
    rewrite (get_tracer_initialized host _ w t obj Hsome Hobj).
    unfold registry_answer.
    destruct (decide (tracer_cls = class_of obj)); by repeat split; try left.
  - destruct (decide (class_of obj = ChromeTracer_cls)) as [Heq|Hne].
    + destruct obj as [| |a]; try done.
      exists (put_attrs t (cleared a) w).
      rewrite (clear_tracer_chrome host w t a Hsome Hobj).
      repeat split; try done. by right.
    + exists w.
      rewrite (clear_tracer_other_class host w t obj Hsome Hobj Hne).
      by repeat split; try left.
Qed.

Lemma class_of_cleared_instance (obj : instance) :
  class_of (cleared_instance obj) = class_of obj.
Proof. by destruct obj. Qed.

(** Once the registry is set it stays as it is under any sequence of calls of
    [get_tracer], with any classes, and of [clear_tracer]: the same object
    stays registered, its class does not change, no object is made and no
    other object is touched.  Each call is answered by the class that is
    registered alone: [get_tracer] succeeds for that class and raises
    [TypeError] for every other, [clear_tracer] succeeds if and only if the
    class is [ChromeTracer]. *)
Theorem registry_is_fixed_once_set (host : Host) (calls : list RegistryCall)
  (w : World) (t : loc) (obj : instance) :
  _tracer w = Some t ->
  heap w !! t = Some obj ->
  exists (w' : World) (obj' : instance),
    registry_calls host calls w
    = (Return (map (registry_result (class_of obj)) calls), w') /\
    _tracer w' = Some t /\
    heap w' !! t = Some obj' /\
    class_of obj' = class_of obj /\
    dom (heap w') = dom (heap w) /\
    (forall l : loc, l <> t -> heap w' !! l = heap w !! l).
Proof.
  revert w obj. induction calls as [|c rest IH]; intros w obj Hsome Hobj.
  - exists w, obj. by repeat split.
  - destruct (registry_call_set host c w t obj Hsome Hobj)
      as (w1 & Hcall & Hsome1 & Hheap1 & _).
    assert (Hobj1 : exists obj1, heap w1 !! t = Some obj1 /\
                                 class_of obj1 = class_of obj /\
                                 dom (heap w1) = dom (heap w) /\
                                 forall l, l <> t -> heap w1 !! l = heap w !! l).
    { destruct Hheap1 as [->| ->].
      - by exists obj.
      - exists (cleared_instance obj). rewrite lookup_insert_eq.
        split; [done|]. split; [apply class_of_cleared_instance|]. split.
        + rewrite dom_insert_L.
          apply subseteq_union_1_L, singleton_subseteq_l.
          by apply (elem_of_dom_2 _ _ _ Hobj).
        + intros l Hl. by rewrite lookup_insert_ne. }
    destruct Hobj1 as (obj1 & Hobj1 & Hcls1 & Hdom1 & Hother1).
    destruct (IH w1 obj1 Hsome1 Hobj1)
      as (w' & obj' & Hrun & Hsome' & Hobj' & Hcls' & Hdom' & Hother').
    exists w', obj'. simpl. unfold bind at 1. unfold attempt. rewrite Hcall.
    unfold bind at 1. rewrite Hrun. rewrite Hcls1.
    repeat split; try congruence.
    intros l Hl. rewrite Hother' by done. by apply Hother1.
Qed.

Lemma registry_is_fixed_once_set_witness :
  let calls := [CallClearTracer; CallGetTracer DummyTracer_cls;
                CallGetTracer ChromeTracer_cls; CallClearTracer] in
  exists (w' : World) (obj' : instance),
    registry_calls cpu_host calls dummy_world
    = (Return (map (registry_result DummyTracer_cls) calls), w') /\
    _tracer w' = Some 0%nat /\
    heap w' !! 0%nat = Some obj' /\
    class_of obj' = DummyTracer_cls /\
    dom (heap w') = dom (heap dummy_world) /\
    (forall l : loc, l <> 0%nat -> heap w' !! l = heap dummy_world !! l).
Proof.
  intros calls.
  apply (registry_is_fixed_once_set cpu_host calls dummy_world 0%nat
           DummyTracerInstance).
  - reflexivity.
  - reflexivity.
Defined.

(** ** Nested spans *)




(** ** [flush] and the buffer *)





(** ** The base class *)

(** An object of the base class [Tracer] implements nothing.  A span on it
    raises [NotImplementedError] when the [with] statement is entered: the
    traced block does not run.  [clear], [flush] and [enable] raise too, the
    writer is not called, and nothing changes. *)
Theorem base_tracer_implements_nothing (host : Host) (w : World)
  (tracer : loc) :
  heap w !! tracer = Some TracerInstance ->
  (forall (name : string) (body : M unit),
     span host tracer name body w
     = (Raise (NotImplementedError "Tracers must implement add_event"), w)) /\
  call_clear tracer w
  = (Raise (NotImplementedError "Tracers must implement clear"), w) /\
  (forall (filename : string) (writer : Writer),
     call_flush tracer filename writer w
     = (Raise (NotImplementedError "Tracers must implement flush"), w)) /\
  (forall enable_flag : bool,
     call_enable tracer enable_flag w
     = (Raise (NotImplementedError "Tracers must implement enable"), w)).
Proof.
  intros Hobj. repeat split.
  - intros name body. unfold span, with_, call_add_event, method.
    unfold bind at 1 2 3. by rewrite (load_some _ _ _ Hobj).
  - unfold call_clear, method. unfold bind at 1 2.
    by rewrite (load_some _ _ _ Hobj).
  - intros filename writer. unfold call_flush, method. unfold bind at 1 2.
    by rewrite (load_some _ _ _ Hobj).
  - intros enable_flag. unfold call_enable, method. unfold bind at 1 2.
    by rewrite (load_some _ _ _ Hobj).
Qed.

Lemma base_tracer_implements_nothing_witness :
  let w := set_heap (<[0%nat := TracerInstance]> ∅) initial_world in
  (forall (name : string) (body : M unit),
     span cpu_host 0%nat name body w
     = (Raise (NotImplementedError "Tracers must implement add_event"), w)) /\
  call_clear 0%nat w
  = (Raise (NotImplementedError "Tracers must implement clear"), w) /\
  (forall (filename : string) (writer : Writer),
     call_flush 0%nat filename writer w
     = (Raise (NotImplementedError "Tracers must implement flush"), w)) /\
  (forall enable_flag : bool,
     call_enable 0%nat enable_flag w
     = (Raise (NotImplementedError "Tracers must implement enable"), w)).
Proof.
  intros w.
  apply (base_tracer_implements_nothing cpu_host w 0%nat).
  reflexivity.
Defined.
